(** * SmartPark: plate capture, duplicate guard, log store and dashboard

    A shallow embedding of the TypeScript sources of the SmartPark
    application and the properties its specification states about them.

    - [src/components/CameraScanner.tsx]: [preprocessImage],
      [cleanPlateNumber], [isValidPlateNumber], the tail of [capture] and
      [confirmPlate];
    - [src/components/Dashboard.tsx]: [filteredEntries] and [exportData];
    - [src/pages/Index.tsx], local-storage revision: the load and save
      effects and [addParkingEntry];
    - [src/services/parkingService.ts]: [insertEntry] and
      [checkDuplicateEntry];
    - [src/pages/Index.tsx], remote-backed revision: [addParkingEntry].

    Conventions.  A JavaScript string is a [string]; the plate normalizer
    removes every character outside ASCII like any other non-alphanumeric
    character, and case mapping is that of the ASCII letters.  A [Date] is
    its time value, the number of milliseconds since the epoch, as a [Z];
    the invalid date is not a value of the model.  The OCR confidence is a
    rational number.  Pixel arithmetic is done on binary64 floating-point
    numbers, as JavaScript does.  The text layer of JSON is left out: what
    is stored is the array that the text denotes. *)

From Stdlib Require Import ZArith List String Ascii Bool Lia QArith.
From Stdlib Require Import Floats Uint63.
From stdpp Require list.
Import ListNotations.

Set Warnings "-inexact-float".

Open Scope string_scope.
Open Scope Z_scope.

(** ** Built-in string operations used by the program *)

Module JSString.

Definition in_range (lo hi c : ascii) : bool :=
  ((lo <=? c)%char && (c <=? hi)%char)%bool.

Definition is_upper (c : ascii) : bool := in_range "A" "Z" c.
Definition is_lower (c : ascii) : bool := in_range "a" "z" c.
Definition is_digit (c : ascii) : bool := in_range "0" "9" c.

Definition upcase (c : ascii) : ascii :=
  if is_lower c then ascii_of_nat (nat_of_ascii c - 32) else c.

Definition downcase (c : ascii) : ascii :=
  if is_upper c then ascii_of_nat (nat_of_ascii c + 32) else c.

Fixpoint map_chars (f : ascii -> ascii) (s : string) : string :=
  match s with
  | EmptyString => EmptyString
  | String c s' => String (f c) (map_chars f s')
  end.

(** [s.toUpperCase()] and [s.toLowerCase()]. *)
Definition toUpperCase : string -> string := map_chars upcase.
Definition toLowerCase : string -> string := map_chars downcase.

(** The regular expressions of the program are all a single character
    class: a set of characters, possibly negated ([[^...]]), possibly
    with the [i] flag. *)
Inductive CharSet : Type :=
| Chr (c : ascii)
| Rng (lo hi : ascii)
| Alt (a b : CharSet).

Fixpoint member (A : CharSet) (c : ascii) : bool :=
  match A with
  | Chr d => (d =? c)%char
  | Rng lo hi => in_range lo hi c
  | Alt a b => (member a c || member b c)%bool
  end.

Record RegExp : Type := mkRegExp
  { negated : bool; charset : CharSet; ignoreCase : bool }.

(** With the [i] flag a character matches the set when some member of
    the set has the same canonical (upper-case) form. *)
Definition found (re : RegExp) (c : ascii) : bool :=
  if ignoreCase re
  then (member (charset re) (upcase c) || member (charset re) (downcase c))%bool
  else member (charset re) c.

Definition matches (re : RegExp) (c : ascii) : bool :=
  xorb (negated re) (found re c).

(** [s.replace(re, by)] for a one-character [re] with the [g] flag. *)
Fixpoint replace_g (re : RegExp) (by_ : string) (s : string) : string :=
  match s with
  | EmptyString => EmptyString
  | String c s' =>
      if matches re c then by_ ++ replace_g re by_ s'
      else String c (replace_g re by_ s')
  end.

(** [re.test(s)] for a one-character [re]. *)
Fixpoint test (re : RegExp) (s : string) : bool :=
  match s with
  | EmptyString => false
  | String c s' => (matches re c || test re s')%bool
  end.

(** [s.includes(t)]. *)
Fixpoint includes (s t : string) : bool :=
  (String.prefix t s
   || match s with
      | EmptyString => false
      | String _ s' => includes s' t
      end)%bool.

(** [parts.join(sep)]. *)
Fixpoint join (sep : string) (parts : list string) : string :=
  match parts with
  | [] => ""
  | [x] => x
  | x :: rest => x ++ sep ++ join sep rest
  end.

(** A string is truthy when it is not empty. *)
Definition truthy (s : string) : bool :=
  match s with EmptyString => false | _ => true end.

End JSString.

(** ** Built-in [Date] operations used by the program *)

Module JSDate.

Definition msPerDay : Z := 86400000.
Definition Day (t : Z) : Z := t / msPerDay.
Definition HourFromTime (t : Z) : Z := (t / 3600000) mod 24.
Definition MinFromTime (t : Z) : Z := (t / 60000) mod 60.
Definition SecFromTime (t : Z) : Z := (t / 1000) mod 60.
Definition msFromTime (t : Z) : Z := t mod 1000.
Definition WeekDay (t : Z) : Z := (Day t + 4) mod 7.

(** The calendar repeats every 146097 days (400 years).  Within a cycle
    that starts on 1 March of a year divisible by 400, [civil_of_doe]
    takes the day of the cycle to (year of the cycle, month, day of the
    month) and [doe_of_civil] goes back. *)
Definition civil_of_doe (doe : Z) : Z * Z * Z :=
  let yoe := (doe - doe / 1460 + doe / 36524 - doe / 146096) / 365 in
  let doy := doe - (365 * yoe + yoe / 4 - yoe / 100) in
  let mp := (5 * doy + 2) / 153 in
  let d := doy - (153 * mp + 2) / 5 + 1 in
  let m := if mp <? 10 then mp + 3 else mp - 9 in
  (yoe, m, d).

Definition doe_of_civil (yoe m d : Z) : Z :=
  let mp := if 2 <? m then m - 3 else m + 9 in
  let doy := (153 * mp + 2) / 5 + d - 1 in
  yoe * 365 + yoe / 4 - yoe / 100 + doy.

(** Day number (days since the epoch) to calendar date, and back. *)
Definition civil_from_days (z : Z) : Z * Z * Z :=
  let z := z + 719468 in
  let era := z / 146097 in
  let '(yoe, m, d) := civil_of_doe (z mod 146097) in
  (yoe + era * 400 + (if m <=? 2 then 1 else 0), m, d).

Definition days_from_civil (y m d : Z) : Z :=
  let y := y - (if m <=? 2 then 1 else 0) in
  let era := y / 400 in
  era * 146097 + doe_of_civil (y mod 400) m d - 719468.

(** The calendar as the language standard defines it: the day number of
    1 January of a year, whether a year is a leap year (1 or 0), the days of
    a year before each month, and the days of each month. *)
Definition DayFromYear (y : Z) : Z :=
  365 * (y - 1970) + (y - 1969) / 4 - (y - 1901) / 100 + (y - 1601) / 400.

Definition InLeapYear (y : Z) : Z :=
  if negb (y mod 4 =? 0) then 0
  else if negb (y mod 100 =? 0) then 1
  else if negb (y mod 400 =? 0) then 0
  else 1.

Definition DaysBeforeMonth (m leap : Z) : Z :=
  nth (Z.to_nat (m - 1))
    [0; 31; 59 + leap; 90 + leap; 120 + leap; 151 + leap; 181 + leap;
     212 + leap; 243 + leap; 273 + leap; 304 + leap; 334 + leap] 0.

Definition DaysInMonth (m leap : Z) : Z :=
  nth (Z.to_nat (m - 1))
    [31; 28 + leap; 31; 30; 31; 30; 31; 31; 30; 31; 30; 31] 0.

Definition YearFromTime (t : Z) : Z := fst (fst (civil_from_days (Day t))).
(** Months count from 1 here; JavaScript's [MonthFromTime] is one less. *)
Definition MonthFromTime (t : Z) : Z := snd (fst (civil_from_days (Day t))).
Definition DateFromTime (t : Z) : Z := snd (civil_from_days (Day t)).

Definition MakeTime (h m s ms : Z) : Z :=
  h * 3600000 + m * 60000 + s * 1000 + ms.
Definition MakeDate (day time : Z) : Z := day * msPerDay + time.

(** The time values a [Date] can hold. *)
Definition maxTime : Z := 8640000000000000.
Definition in_range (t : Z) : bool :=
  ((- maxTime <=? t) && (t <=? maxTime))%bool.

Definition digit_char (d : Z) : ascii := ascii_of_nat (48 + Z.to_nat d).
Definition digit_val (c : ascii) : Z := Z.of_nat (nat_of_ascii c) - 48.

(** The [w] low-order decimal digits of [n], most significant first. *)
Fixpoint digits (w : nat) (n : Z) : string :=
  match w with
  | O => ""
  | S w' => String (digit_char ((n / 10 ^ Z.of_nat w') mod 10)) (digits w' n)
  end.

(** Years 0 to 9999 take four digits, the others a sign and six. *)
Definition year_string (y : Z) : string :=
  if ((0 <=? y) && (y <=? 9999))%bool then digits 4 y
  else if y <? 0 then "-" ++ digits 6 (- y)
  else "+" ++ digits 6 y.

(** [d.toISOString()], which is also what [JSON.stringify] writes for a
    [Date]. *)
Definition toISOString (t : Z) : string :=
  year_string (YearFromTime t) ++ "-" ++ digits 2 (MonthFromTime t)
    ++ "-" ++ digits 2 (DateFromTime t)
    ++ "T" ++ digits 2 (HourFromTime t)
    ++ ":" ++ digits 2 (MinFromTime t)
    ++ ":" ++ digits 2 (SecFromTime t)
    ++ "." ++ digits 3 (msFromTime t) ++ "Z".

(** Parsing, as steps that each consume a prefix of the input. *)
Fixpoint take_digits (w : nat) (acc : Z) (s : string) : option (Z * string) :=
  match w with
  | O => Some (acc, s)
  | S w' =>
      match s with
      | String c s' =>
          if JSString.is_digit c
          then take_digits w' (10 * acc + digit_val c) s'
          else None
      | EmptyString => None
      end
  end.

Definition expect (c : ascii) (s : string) : option string :=
  match s with
  | String c' s' => if (c =? c')%char then Some s' else None
  | EmptyString => None
  end.

Definition take_year (s : string) : option (Z * string) :=
  match s with
  | String c s' =>
      if (c =? "+")%char then take_digits 6 0 s'
      else if (c =? "-")%char then
        match take_digits 6 0 s' with
        | Some (y, r) => if y =? 0 then None else Some (- y, r)
        | None => None
        end
      else take_digits 4 0 s
  | EmptyString => None
  end.

Notation "'let?' p := e 'in' k" :=
  (match e with Some p => k | None => None end)
    (at level 10, p pattern, e at level 200, k at level 200, only parsing).

(** [new Date(s)] for a string [s] in the date-time format
    [YYYY-MM-DDTHH:mm:ss.sssZ], with a four-digit or an expanded year.
    [None] is the invalid date: what a string outside the format, or with a
    field out of its bounds, gives. *)
Definition parse (s : string) : option Z :=
  let? (y, s) := take_year s in
  let? s := expect "-" s in
  let? (m, s) := take_digits 2 0 s in
  let? s := expect "-" s in
  let? (d, s) := take_digits 2 0 s in
  let? s := expect "T" s in
  let? (hh, s) := take_digits 2 0 s in
  let? s := expect ":" s in
  let? (mm, s) := take_digits 2 0 s in
  let? s := expect ":" s in
  let? (ss, s) := take_digits 2 0 s in
  let? s := expect "." s in
  let? (ms, s) := take_digits 3 0 s in
  let? s := expect "Z" s in
  match s with
  | EmptyString =>
      if ((1 <=? m) && (m <=? 12) && (1 <=? d)
          && (d <=? DaysInMonth m (InLeapYear y))
          && (hh <=? 23) && (mm <=? 59) && (ss <=? 59))%bool
      then
        let t := MakeDate (days_from_civil y m d) (MakeTime hh mm ss ms) in
        if in_range t then Some t else None
      else None
  | _ => None
  end.

Definition day_name (w : Z) : string :=
  nth (Z.to_nat w) ["Sun"; "Mon"; "Tue"; "Wed"; "Thu"; "Fri"; "Sat"] "".

Definition month_name (m : Z) : string :=
  nth (Z.to_nat (m - 1))
    ["Jan"; "Feb"; "Mar"; "Apr"; "May"; "Jun";
     "Jul"; "Aug"; "Sep"; "Oct"; "Nov"; "Dec"] "".

(** The digits of a year, at least four of them. *)
Definition year_digits (y : Z) : string :=
  if y <? 10000 then digits 4 y
  else if y <? 100000 then digits 5 y else digits 6 y.

(** [d.toDateString()] in the zone whose offset from UTC at time [t] is
    [tz t] milliseconds. *)
Definition toDateString (tz : Z -> Z) (t : Z) : string :=
  let lt := t + tz t in
  let y := YearFromTime lt in
  day_name (WeekDay lt) ++ " " ++ month_name (MonthFromTime lt)
    ++ " " ++ digits 2 (DateFromTime lt)
    ++ " " ++ (if y <? 0 then "-" ++ year_digits (- y) else year_digits y).

End JSDate.

(** ** Built-in number operations used by the program (binary64) *)

Module JSNumber.
Local Open Scope float_scope.

Definition two52 : float := 4503599627370496.

(** The number a byte of a typed array reads as. *)
Definition of_byte (b : Z) : float := PrimFloat.of_uint63 (Uint63.of_Z b).

(** [Math.floor(x)].  Below 2^52 in magnitude, adding and subtracting 2^52
    rounds to an integer; from 2^52 on every number is an integer. *)
Definition floor (x : float) : float :=
  if ((two52 <=? abs x) || (x =? 0))%bool then x
  else
    let t := if x <? 0 then (x - two52) + two52 else (x + two52) - two52 in
    if x <? t then t - 1 else t.

(** [Math.round(x)]: the nearest integer, ties towards plus infinity; a
    zero result keeps the sign of [x]. *)
Definition Math_round (x : float) : float :=
  if x =? 0 then x
  else
    let f := floor x in
    let r := if 0.5 <=? x - f then f + 1 else f in
    if ((r =? 0) && (x <? 0))%bool then (-0) else r.

Definition Math_max (a b : float) : float :=
  if (is_nan a || is_nan b)%bool then nan else if a <? b then b else a.

Definition Math_min (a b : float) : float :=
  if (is_nan a || is_nan b)%bool then nan else if b <? a then b else a.

(** The integer part of a finite number. *)
Definition to_Z (x : float) : Z :=
  match Prim2SF x with
  | SpecFloat.S754_finite s m e =>
      let n := if (0 <=? e)%Z then (Z.pos m * 2 ^ e)%Z
               else (Z.pos m / 2 ^ (- e))%Z in
      if s then (- n)%Z else n
  | _ => 0%Z
  end.

(** The byte a number is stored as in a [Uint8ClampedArray]. *)
Definition ToUint8Clamp (x : float) : Z :=
  if is_nan x then 0%Z
  else if x <=? 0 then 0%Z
  else if 255 <=? x then 255%Z
  else
    let f := floor x in
    if f + 0.5 <? x then (to_Z f + 1)%Z
    else if x <? f + 0.5 then to_Z f
    else if Z.even (to_Z f) then to_Z f else (to_Z f + 1)%Z.

End JSNumber.

(** ** The data model *)

Inductive EntryType : Type := Entry | Exit.

Definition EntryType_eqb (a b : EntryType) : bool :=
  match a, b with
  | Entry, Entry | Exit, Exit => true
  | _, _ => false
  end.

(** The string a direction is at run time. *)
Definition EntryType_str (t : EntryType) : string :=
  match t with Entry => "Entry" | Exit => "Exit" end.

(** [ParkingEntry] of [Index.tsx]; [timestamp] is the time value of the
    [Date]. *)
Record ParkingEntry : Type := mkEntry
  { id : string;
    plate_number : string;
    timestamp : Z;
    entry_type : EntryType }.

(** A [toast] call: its title and whether it is the destructive variant. *)
Record Toast : Type := mkToast { title : string; destructive : bool }.

(** ** CameraScanner.tsx: text pipeline *)

Module CameraScanner.
Import JSString.

(** [/[^A-Z0-9]/gi] *)
Definition re_not_alnum : RegExp :=
  mkRegExp true (Alt (Rng "A" "Z") (Rng "0" "9")) true.
(** [/X/g] for one letter *)
Definition re_char (c : ascii) : RegExp := mkRegExp false (Chr c) false.
(** [/[A-Z]/] and [/[0-9]/] *)
Definition re_letters : RegExp := mkRegExp false (Rng "A" "Z") false.
Definition re_numbers : RegExp := mkRegExp false (Rng "0" "9") false.

Definition cleanPlateNumber (text : string) : string :=
  let cleaned := toUpperCase (replace_g re_not_alnum "" text) in
  let cleaned := replace_g (re_char "O") "0" cleaned in
  let cleaned := replace_g (re_char "Q") "0" cleaned in
  let cleaned := replace_g (re_char "I") "1" cleaned in
  let cleaned := replace_g (re_char "L") "1" cleaned in
  let cleaned := replace_g (re_char "S") "5" cleaned in
  let cleaned := replace_g (re_char "Z") "2" cleaned in
  let cleaned := replace_g (re_char "G") "6" cleaned in
  let cleaned := replace_g (re_char "B") "8" cleaned in
  let cleaned := replace_g (re_char "D") "0" cleaned in
  let cleaned := replace_g (re_char "U") "0" cleaned in
  cleaned.

Definition isValidPlateNumber (plateNumber : string) : bool :=
  if ((String.length plateNumber <? 4)%nat
      || (8 <? String.length plateNumber)%nat)%bool
  then false
  else
    let hasLetters := test re_letters plateNumber in
    let hasNumbers := test re_numbers plateNumber in
    (hasLetters || hasNumbers)%bool.

(** The state of the component that [capture] and [confirmPlate] read and
    write, and the toasts shown so far (newest first). *)
Record State : Type := mkState
  { extractedText : string;
    selectedEntryType : EntryType;
    toasts : list Toast }.

Definition Q_gt (a b : Q) : bool := negb (Qle_bool a b).

(** The tail of [capture], from the result of [worker.recognize] on. *)
Definition capture (text : string) (confidence : Q) (st : State) : State :=
  let cleanedText := cleanPlateNumber text in
  if (isValidPlateNumber cleanedText && Q_gt confidence 30)%bool
  then mkState cleanedText (selectedEntryType st)
         (mkToast "License Plate Detected" false :: toasts st)
  else mkState "" (selectedEntryType st)
         (mkToast "Plate Detection Failed" true :: toasts st).

(** [confirmPlate]: the call of [onPlateScanned] it makes, if any, and
    the state after [resetCapture]. *)
Definition confirmPlate (st : State)
  : option (string * EntryType) * State :=
  if truthy (extractedText st)
  then (Some (extractedText st, selectedEntryType st),
        mkState "" (selectedEntryType st) (toasts st))
  else (None, st).

End CameraScanner.

(** ** CameraScanner.tsx: [preprocessImage] *)

Module ImagePreprocessor.
Import stdpp.list.
Import JSNumber.

(** The [ImageData] of the canvas: [data] holds four bytes (red, green,
    blue, alpha) per pixel. *)
Record ImageData : Type := mkImageData
  { width : nat; height : nat; data : list Z }.

(** [data[i]] as an operand of arithmetic: reading past the end gives
    [undefined], which is not a number. *)
Definition get (data : list Z) (i : nat) : float :=
  match data !! i with
  | Some b => of_byte b
  | None => nan
  end.

(** [data[i] = x]: a write past the end of a typed array is dropped. *)
Definition set (data : list Z) (i : nat) (x : float) : list Z :=
  <[ i := ToUint8Clamp x ]> data.

(** The body of the loop at index [i]. *)
Definition body (data : list Z) (i : nat) : list Z :=
  let gray :=
    Math_round (0.299 * get data i + 0.587 * get data (i + 1)
                + 0.114 * get data (i + 2))%float in
  let threshold := 128%float in
  let contrast := 2.0%float in
  let brightness := 20%float in
  let enhanced := gray in
  let enhanced := (enhanced * contrast + brightness)%float in
  let enhanced := if (threshold <? enhanced)%float then 255%float else 0%float in
  let enhanced := Math_min 255 (Math_max 0 enhanced) in
  let data := set data i enhanced in
  let data := set data (i + 1) enhanced in
  let data := set data (i + 2) enhanced in
  data.

(** [for (let i = ...; i < data.length; i += 4)], with a bound on the
    number of iterations. *)
Fixpoint loop (fuel : nat) (i : nat) (data : list Z) : list Z :=
  match fuel with
  | O => data
  | S fuel' =>
      if (i <? List.length data)%nat
      then loop fuel' (i + 4) (body data i)
      else data
  end.

Definition preprocessImage (img : ImageData) : ImageData :=
  mkImageData (width img) (height img)
    (loop (List.length (data img)) 0 (data img)).

End ImagePreprocessor.

(** ** Dashboard.tsx *)

Module Dashboard.
Import JSString JSDate.

(** ["all" | "Entry" | "Exit"] *)
Inductive FilterType : Type := AllTypes | OnlyType (t : EntryType).
(** ["all" | "today" | "week" | "month"] *)
Inductive DateFilter : Type := AllDates | Today | Week | Month.

Definition isAllDates (f : DateFilter) : bool :=
  match f with AllDates => true | _ => false end.

(** [filteredEntries]; [now] is the clock read by [new Date()] and [tz]
    the time zone of the browser. *)
Definition filteredEntries (tz : Z -> Z) (now : Z)
    (entries : list ParkingEntry) (searchTerm : string)
    (filterType : FilterType) (dateFilter : DateFilter)
  : list ParkingEntry :=
  let filtered := entries in
  let filtered :=
    if truthy searchTerm
    then filter (fun entry =>
                   includes (toLowerCase (plate_number entry))
                            (toLowerCase searchTerm)) filtered
    else filtered in
  let filtered :=
    match filterType with
    | OnlyType t =>
        filter (fun entry => EntryType_eqb (entry_type entry) t) filtered
    | AllTypes => filtered
    end in
  let filtered :=
    if negb (isAllDates dateFilter)
    then filter (fun entry =>
                   let entryDate := timestamp entry in
                   match dateFilter with
                   | Today =>
                       (toDateString tz entryDate =? toDateString tz now)%string
                   | Week =>
                       let weekAgo := now - 7 * 24 * 60 * 60 * 1000 in
                       weekAgo <=? entryDate
                   | Month =>
                       let monthAgo := now - 30 * 24 * 60 * 60 * 1000 in
                       monthAgo <=? entryDate
                   | AllDates => true
                   end) filtered
    else filtered in
  filtered.

Definition LF : string := String (ascii_of_nat 10) "".

(** The text [exportData] puts in the downloaded file. *)
Definition csvContent (filteredEntries : list ParkingEntry) : string :=
  join LF
    ("Plate Number,Entry Type,Timestamp"
     :: map (fun entry =>
               plate_number entry ++ "," ++ EntryType_str (entry_type entry)
               ++ "," ++ toISOString (timestamp entry))
            filteredEntries).

End Dashboard.

(** ** Index.tsx, local-storage revision *)

Module LocalIndex.
Import JSDate.

Record State : Type := mkState
  { parkingEntries : list ParkingEntry; toasts : list Toast }.

(** An element of the JSON array kept under the key
    ["smartpark-entries"]: the fields of an entry, the timestamp as a
    string. *)
Record StoredEntry : Type := mkStored
  { stored_id : string;
    stored_plate_number : string;
    stored_timestamp : string;
    stored_entry_type : EntryType }.

(** What is in [localStorage] under the key: nothing, or an array. *)
Definition Storage : Type := option (list StoredEntry).

(** The save effect: [JSON.stringify(parkingEntries)]. *)
Definition save (entries : list ParkingEntry) : Storage :=
  Some (map (fun e => mkStored (id e) (plate_number e)
                        (toISOString (timestamp e)) (entry_type e))
            entries).

(** [{...entry, timestamp: new Date(entry.timestamp)}]; [None] when the
    string is not a date. *)
Definition revive (entry : StoredEntry) : option ParkingEntry :=
  match parse (stored_timestamp entry) with
  | Some t => Some (mkEntry (stored_id entry) (stored_plate_number entry)
                      t (stored_entry_type entry))
  | None => None
  end.

Fixpoint revive_all (entries : list StoredEntry) : option (list ParkingEntry) :=
  match entries with
  | [] => Some []
  | e :: rest =>
      match revive e, revive_all rest with
      | Some e', Some rest' => Some (e' :: rest')
      | _, _ => None
      end
  end.

(** The load effect: the entry list after mount.  [None] when a stored
    timestamp is not a date. *)
Definition load (savedEntries : Storage) (st : State) : option State :=
  match savedEntries with
  | Some entries =>
      match revive_all entries with
      | Some entriesWithDates => Some (mkState entriesWithDates (toasts st))
      | None => None
      end
  | None => Some st
  end.

(** [addParkingEntry]; [now] is the clock and [newId] the random
    identifier. *)
Definition addParkingEntry (now : Z) (newId : string)
    (plateNumber : string) (entryType : EntryType) (st : State) : State :=
  let fiveMinutesAgo := now - 5 * 60 * 1000 in
  let recentDuplicate :=
    find (fun entry =>
            ((plate_number entry =? plateNumber)%string
             && EntryType_eqb (entry_type entry) entryType
             && (fiveMinutesAgo <? timestamp entry))%bool)
         (parkingEntries st) in
  match recentDuplicate with
  | Some _ =>
      mkState (parkingEntries st)
        (mkToast "Duplicate Entry Detected" true :: toasts st)
  | None =>
      let newEntry := mkEntry newId plateNumber now entryType in
      mkState (newEntry :: parkingEntries st)
        (mkToast "License Plate Scanned" false :: toasts st)
  end.

End LocalIndex.

(** ** Exceptions *)

Module Exn.

(** The result of running a block: it completes with a value or throws. *)
Inductive Outcome (A : Type) : Type :=
| Return (a : A)
| Throw (error : string).
Arguments Return {A} a.
Arguments Throw {A} error.

Definition bind {A B : Type} (m : Outcome A) (k : A -> Outcome B) : Outcome B :=
  match m with
  | Return a => k a
  | Throw e => Throw e
  end.

(** [try { body } catch (error) { handler }] *)
Definition try_catch {A : Type} (body : Outcome A)
    (handler : string -> Outcome A) : Outcome A :=
  match body with
  | Return a => Return a
  | Throw e => handler e
  end.

Notation "x <- m ;; k" := (bind m (fun x => k))
  (at level 61, m at next level, right associativity).

End Exn.

(** ** parkingService.ts *)

Module ParkingService.
Import JSDate Exn.

(** A row of the table [parking_entries]; [row_timestamp] is the
    instant its [timestamp] column reads as. *)
Record DatabaseParkingEntry : Type := mkRow
  { row_id : string;
    row_plate_number : string;
    row_timestamp : Z;
    row_entry_type : EntryType }.

(** What awaiting a request gives: the pair [{ data, error }], or an
    exception. *)
Inductive Response (A : Type) : Type :=
| Resolved (data : option A) (error : option string)
| Rejected (reason : string).
Arguments Resolved {A} data error.
Arguments Rejected {A} reason.

Definition await {A : Type} (r : Response A)
  : Outcome (option A * option string) :=
  match r with
  | Resolved data error => Return (data, error)
  | Rejected reason => Throw reason
  end.

(** The external store, as the two requests the service sends:
    the insert of a row (plate, direction, timestamp string) returning the
    created row, and the select of the ids of at most one row with the
    plate, the direction and a timestamp not before the given one. *)
Record Supabase : Type := mkSupabase
  { insert_select_single :
      string -> EntryType -> string -> Response DatabaseParkingEntry;
    select_recent_limit1 :
      string -> EntryType -> string -> Response (list string) }.

Definition insertEntry (supabase : Supabase) (now : Z)
    (plateNumber : string) (entryType : EntryType)
  : Outcome (option ParkingEntry) :=
  try_catch
    (r <- await (insert_select_single supabase plateNumber entryType
                   (toISOString now)) ;;
     let '(data, error) := r in
     match error with
     | Some e => Throw e
     | None =>
         match data with
         | Some d =>
             Return (Some (mkEntry (row_id d) (row_plate_number d)
                             (row_timestamp d) (row_entry_type d)))
         | None => Return None
         end
     end)
    (fun _ => Return None).

Definition checkDuplicateEntry (supabase : Supabase) (now : Z)
    (plateNumber : string) (entryType : EntryType) : Outcome bool :=
  try_catch
    (let fiveMinutesAgo := toISOString (now - 5 * 60 * 1000) in
     r <- await (select_recent_limit1 supabase plateNumber entryType
                   fiveMinutesAgo) ;;
     let '(data, error) := r in
     match error with
     | Some _ => Return false
     | None =>
         Return (0 <? match data with
                      | Some rows => List.length rows
                      | None => 0
                      end)%nat
     end)
    (fun _ => Return false).

(** The two operations of the service that [Index.tsx] calls. *)
Record Service : Type := mkService
  { svc_checkDuplicateEntry : string -> EntryType -> Outcome bool;
    svc_insertEntry : string -> EntryType -> Outcome (option ParkingEntry) }.

Definition parkingService (supabase : Supabase) (now : Z) : Service :=
  mkService (checkDuplicateEntry supabase now) (insertEntry supabase now).

End ParkingService.

(** ** Index.tsx, remote-backed revision *)

Module RemoteIndex.
Import Exn ParkingService.

Record State : Type := mkState
  { parkingEntries : list ParkingEntry; toasts : list Toast }.

Definition addParkingEntry (service : Service)
    (plateNumber : string) (entryType : EntryType) (st : State)
  : Outcome State :=
  try_catch
    (isDuplicate <- svc_checkDuplicateEntry service plateNumber entryType ;;
     if (isDuplicate : bool)
     then Return (mkState (parkingEntries st)
                    (mkToast "Duplicate Entry Detected" true :: toasts st))
     else
       newEntry <- svc_insertEntry service plateNumber entryType ;;
       match newEntry with
       | Some e =>
           Return (mkState (e :: parkingEntries st)
                     (mkToast "License Plate Scanned" false :: toasts st))
       | None => Throw "Failed to insert entry"
       end)
    (fun _ =>
       Return (mkState (parkingEntries st)
                 (mkToast "Failed to Save Entry" true :: toasts st))).

End RemoteIndex.

(** * The vocabulary of the specification *)

Module Spec.
Import JSString.

(** The characters of a string. *)
Definition chars (s : string) : list ascii := list_ascii_of_string s.

(** A character of [[A-Z0-9]]. *)
Definition plate_char (c : ascii) : bool := (is_upper c || is_digit c)%bool.

Definition letter (c : ascii) : bool := (is_upper c || is_lower c)%bool.

(** Step 1 of the normalizer: drop what is outside [[A-Za-z0-9]], then
    upper-case. *)
Definition alnum (c : ascii) : bool := (letter c || is_digit c)%bool.

Fixpoint keep (P : ascii -> bool) (s : string) : string :=
  match s with
  | EmptyString => EmptyString
  | String c s' => if P c then String c (keep P s') else keep P s'
  end.

Definition stripped_upper (raw : string) : string :=
  toUpperCase (keep alnum raw).

(** Step 2: the substitution table, in its order. *)
Definition substitution_table : list (ascii * ascii) :=
  [("O", "0"); ("Q", "0"); ("I", "1"); ("L", "1"); ("S", "5");
   ("Z", "2"); ("G", "6"); ("B", "8"); ("D", "0"); ("U", "0")]%char.

(** A character after the first rule of the table that applies to it. *)
Definition substitute (c : ascii) : ascii :=
  match find (fun rule => (fst rule =? c)%char) substitution_table with
  | Some rule => snd rule
  | None => c
  end.

(** The acceptance rule of the final revision. *)
Definition acceptable (plate : string) (confidence : Q) : Prop :=
  (4 <= String.length plate <= 8)%nat
  /\ (Exists (fun c => letter c = true) (chars plate)
      \/ Exists (fun c => is_digit c = true) (chars plate))
  /\ (30 < confidence)%Q.

(** The chain of replacements of [cleanPlateNumber], on one character. *)
Definition chain (c : ascii) : ascii :=
  fold_left
    (fun c rule =>
       if matches (CameraScanner.re_char (fst rule)) c then snd rule else c)
    substitution_table c.

(** What the round trip through the store is to reproduce of an entry:
    plate, direction and timestamp to the second. *)
Definition tuple_to_second (e : ParkingEntry) : string * EntryType * Z :=
  (plate_number e, entry_type e, timestamp e / 1000).

(** Dashboard: the three predicates of the filter. *)
Definition plate_contains (term : string) (e : ParkingEntry) : Prop :=
  exists before after : string,
    toLowerCase (plate_number e) = before ++ toLowerCase term ++ after.

Definition direction_is (f : Dashboard.FilterType) (e : ParkingEntry) : Prop :=
  match f with
  | Dashboard.AllTypes => True
  | Dashboard.OnlyType t => entry_type e = t
  end.

(** [n] days, in milliseconds. *)
Definition days (n : Z) : Z := n * 86400000.

Definition in_time_window (tz : Z -> Z) (now : Z) (f : Dashboard.DateFilter)
    (e : ParkingEntry) : Prop :=
  match f with
  | Dashboard.AllDates => True
  | Dashboard.Today =>
      JSDate.toDateString tz (timestamp e) = JSDate.toDateString tz now
  | Dashboard.Week => now - days 7 <= timestamp e
  | Dashboard.Month => now - days 30 <= timestamp e
  end.

(** CSV export: the header, and the line of an entry. *)
Definition csv_header : string := "Plate Number,Entry Type,Timestamp".

Definition csv_line (e : ParkingEntry) : string :=
  plate_number e ++ "," ++ EntryType_str (entry_type e) ++ ","
  ++ JSDate.toISOString (timestamp e).

Definition is_LF (c : ascii) : bool := (c =? ascii_of_nat 10)%char.

(** The lines of a text: the pieces between line feeds. *)
Fixpoint lines (s : string) : list string :=
  match s with
  | EmptyString => [""]
  | String c s' =>
      if is_LF c then "" :: lines s'
      else match lines s' with
           | l :: ls => String c l :: ls
           | [] => [String c ""]
           end
  end.

Definition lf_free (s : string) : bool :=
  forallb (fun c => negb (is_LF c)) (chars s).

(** Duplicate guard. *)
Definition fiveMinutes : Z := 5 * 60 * 1000.

(** The trailing five-minute window that ends at [now]. *)
Definition within_trailing_window (now t : Z) : Prop :=
  now - fiveMinutes < t <= now.

(** The request was answered with the duplicate notice. *)
Definition signals_duplicate (before after : LocalIndex.State) : Prop :=
  LocalIndex.toasts after
  = mkToast "Duplicate Entry Detected" true :: LocalIndex.toasts before.

(** A request to the external store failed: awaiting it threw, or its
    answer carries an error. *)
Definition request_failed {A : Type} (r : ParkingService.Response A) : Prop :=
  match r with
  | ParkingService.Rejected _ => True
  | ParkingService.Resolved _ (Some _) => True
  | ParkingService.Resolved _ None => False
  end.

(** A store that answers from a table: the insert returns the created
    row, the select the ids of at most one matching row. *)
Definition table_store (rows : list ParkingService.DatabaseParkingEntry)
    (newId : string) : ParkingService.Supabase :=
  ParkingService.mkSupabase
    (fun plate ty ts =>
       match JSDate.parse ts with
       | Some t =>
           ParkingService.Resolved
             (Some (ParkingService.mkRow newId plate t ty)) None
       | None => ParkingService.Resolved None (Some "invalid timestamp")
       end)
    (fun plate ty since =>
       match JSDate.parse since with
       | Some t0 =>
           ParkingService.Resolved
             (Some (map ParkingService.row_id
                      (firstn 1
                         (filter
                            (fun r =>
                               ((ParkingService.row_plate_number r =? plate)%string
                                && EntryType_eqb (ParkingService.row_entry_type r) ty
                                && (t0 <=? ParkingService.row_timestamp r))%bool)
                            rows))))
             None
       | None => ParkingService.Resolved None (Some "invalid timestamp")
       end).

(** A store that cannot be reached. *)
Definition unreachable_store : ParkingService.Supabase :=
  ParkingService.mkSupabase
    (fun _ _ _ => ParkingService.Rejected "Failed to fetch")
    (fun _ _ _ => ParkingService.Rejected "Failed to fetch").

(** A store whose select fails and whose insert works. *)
Definition select_failing_store (newId : string) : ParkingService.Supabase :=
  ParkingService.mkSupabase
    (ParkingService.insert_select_single (table_store [] newId))
    (fun _ _ _ => ParkingService.Resolved None (Some "permission denied")).

(** The year of a date string: a minus sign for a year before year 0. *)
Definition signed_year (y : Z) : string :=
  if y <? 0 then "-" ++ JSDate.year_digits (- y) else JSDate.year_digits y.

End Spec.

(** ** The vocabulary of the image preprocessor *)

Module ImageSpec.
Import stdpp.list.
Import JSNumber ImagePreprocessor.

(** The rounded luminance of a pixel with the channels [r], [g], [b], as
    the program computes it. *)
Definition rounded_luminance (r g b : Z) : float :=
  Math_round (0.299 * of_byte r + 0.587 * of_byte g + 0.114 * of_byte b)%float.

(** Contrast 2.0, brightness 20, threshold 128. *)
Definition exceeds_threshold (r g b : Z) : bool :=
  (128 <? rounded_luminance r g b * 2.0 + 20)%float.

Definition binarized (r g b : Z) : Z :=
  if exceeds_threshold r g b then 255 else 0.

(** The byte the loop stores for a pixel whose channels read as [r], [g]
    and [b]. *)
Definition stored (r g b : float) : Z :=
  ToUint8Clamp
    (Math_min 255
       (Math_max 0
          (if (128 <? Math_round (0.299 * r + 0.587 * g + 0.114 * b) * 2.0 + 20)%float
           then 255%float else 0%float))).

(** The byte at index [i] once the pixel of [i] has been processed. *)
Definition processed (data : list Z) (i : nat) : option Z :=
  match data !! i with
  | None => None
  | Some a =>
      Some (if (i mod 4 =? 3)%nat then a
            else stored (get data (4 * (i / 4))) (get data (4 * (i / 4) + 1))
                   (get data (4 * (i / 4) + 2)))
  end.

(** On a pixel whose channels read as [r], [g], [b]: the rounded luminance
    is an integer from 0 to 255, at most one half away from
    (299 r + 587 g + 114 b) / 1000, and the threshold is exceeded exactly
    from luminance 55 on. *)
Definition pixel_ok (r g b : float) : bool :=
  let n := Math_round (0.299 * r + 0.587 * g + 0.114 * b)%float in
  let exact1000 := (299 * r + 587 * g + 114 * b)%float in
  ((0 <=? n)%float && (n <=? 255)%float && (floor n =? n)%float
   && (abs (1000 * n - exact1000) <=? 500)%float
   && Bool.eqb (128 <? n * 2.0 + 20)%float (55 <=? n)%float)%bool.

(** What the 256 bytes read as. *)
Definition byte_values : list float :=
  List.map (fun n => of_byte (Z.of_nat n)) (List.seq 0 256).

End ImageSpec.

(** * More of the code *)

(** ** CameraScanner.tsx: [resetCapture] and the direction buttons *)

Module ScannerControls.
Import CameraScanner.

(** [resetCapture] *)
Definition resetCapture (st : State) : State :=
  mkState "" (selectedEntryType st) (toasts st).

(** The buttons "Entry" and "Exit": [setSelectedEntryType]. *)
Definition setSelectedEntryType (t : EntryType) (st : State) : State :=
  mkState (extractedText st) t (toasts st).

End ScannerControls.

(** ** CameraScanner.tsx, the revision before the final one *)

Module Revision2.
Import JSString.

Definition cleanPlateNumber (text : string) : string :=
  let cleaned := toUpperCase (replace_g CameraScanner.re_not_alnum "" text) in
  let cleaned := replace_g (CameraScanner.re_char "O") "0" cleaned in
  let cleaned := replace_g (CameraScanner.re_char "I") "1" cleaned in
  let cleaned := replace_g (CameraScanner.re_char "S") "5" cleaned in
  let cleaned := replace_g (CameraScanner.re_char "Z") "2" cleaned in
  let cleaned := replace_g (CameraScanner.re_char "G") "6" cleaned in
  let cleaned := replace_g (CameraScanner.re_char "B") "8" cleaned in
  cleaned.

Definition isValidPlateNumber (plateNumber : string) : bool :=
  if ((String.length plateNumber <? 6)%nat
      || (10 <? String.length plateNumber)%nat)%bool
  then false
  else
    let hasLetters := test CameraScanner.re_letters plateNumber in
    let hasNumbers := test CameraScanner.re_numbers plateNumber in
    (hasLetters && hasNumbers)%bool.

(** The tail of [capture]: this revision does not look at the
    confidence. *)
Definition capture (text : string) (st : CameraScanner.State)
  : CameraScanner.State :=
  let cleanedText := cleanPlateNumber text in
  if isValidPlateNumber cleanedText
  then CameraScanner.mkState cleanedText (CameraScanner.selectedEntryType st)
         (mkToast "License Plate Detected" false :: CameraScanner.toasts st)
  else CameraScanner.mkState "" (CameraScanner.selectedEntryType st)
         (mkToast "Invalid Plate Format" true :: CameraScanner.toasts st).

End Revision2.

(** ** CameraScanner.tsx, the revision before the final one: the contrast
    step of [preprocessImage] *)

Module Revision2Image.
Import JSNumber.
Local Open Scope float_scope.

(** [enhancedGray], from the rounded luminance [gray] of a pixel. *)
Definition enhancedGray (gray : float) : float :=
  let contrast := 1.5 in
  let factor := (259 * (contrast * 255 + 255)) / (255 * (259 - contrast * 255)) in
  Math_min 255 (Math_max 0 (factor * (gray - 128) + 128)).

(** The byte that [data[i] = enhancedGray] stores. *)
Definition stored (gray : float) : Z := ToUint8Clamp (enhancedGray gray).

End Revision2Image.

(** ** Index.tsx: the statistics bar (the same in both revisions) *)

Module IndexStats.
Import JSDate.

Record Stats : Type := mkStats
  { totalScans : nat; todayScans : nat; currentlyParked : Z }.

Definition stats (tz : Z -> Z) (now : Z) (parkingEntries : list ParkingEntry)
  : Stats :=
  mkStats
    (List.length parkingEntries)
    (List.length
       (filter (fun entry =>
                  (toDateString tz (timestamp entry) =? toDateString tz now)%string)
               parkingEntries))
    (Z.of_nat
       (List.length
          (filter (fun entry => EntryType_eqb (entry_type entry) Entry)
                  parkingEntries))
     - Z.of_nat
         (List.length
            (filter (fun entry => EntryType_eqb (entry_type entry) Exit)
                    parkingEntries))).

(** What the bar shows as "Currently Parked":
    [Math.max(0, stats.currentlyParked)]. *)
Definition shownParked (s : Stats) : Z := Z.max 0 (currentlyParked s).

End IndexStats.

(** ** Index.tsx, local-storage revision: the scanner wired to the log *)

Module LocalApp.
Import CameraScanner.

(** What the user does. *)
Inductive Event : Type :=
| Capture (text : string) (confidence : Q)
| Select (t : EntryType)
| Confirm (now : Z) (newId : string)
| Retake.

Record State : Type := mkApp
  { scanner : CameraScanner.State; index : LocalIndex.State }.

(** [onPlateScanned={addParkingEntry}] *)
Definition step (ev : Event) (st : State) : State :=
  match ev with
  | Capture text confidence =>
      mkApp (capture text confidence (scanner st)) (index st)
  | Select t =>
      mkApp (ScannerControls.setSelectedEntryType t (scanner st)) (index st)
  | Confirm now newId =>
      match confirmPlate (scanner st) with
      | (Some (plateNumber, entryType), scanner') =>
          mkApp scanner'
            (LocalIndex.addParkingEntry now newId plateNumber entryType
               (index st))
      | (None, scanner') => mkApp scanner' (index st)
      end
  | Retake => mkApp (ScannerControls.resetCapture (scanner st)) (index st)
  end.

Definition run (events : list Event) (st : State) : State :=
  fold_left (fun st ev => step ev st) events st.

(** One request to [addParkingEntry], and a series of them. *)
Record Request : Type := mkRequest
  { req_now : Z; req_id : string; req_plate : string; req_type : EntryType }.

Definition request (r : Request) (st : LocalIndex.State) : LocalIndex.State :=
  LocalIndex.addParkingEntry (req_now r) (req_id r) (req_plate r)
    (req_type r) st.

Definition requests (rs : list Request) (st : LocalIndex.State)
  : LocalIndex.State :=
  fold_left (fun st r => request r st) rs st.

End LocalApp.

(** ** parkingService.ts: [getAllEntries]; Index.tsx: [loadParkingEntries] *)

Module RemoteLoad.
Import Exn ParkingService.

(** [getAllEntries], on the answer to the select of all rows ordered by
    timestamp. *)
Definition getAllEntries (response : Response (list DatabaseParkingEntry))
  : Outcome (list ParkingEntry) :=
  try_catch
    (r <- await response ;;
     let '(data, error) := r in
     match error with
     | Some e => Throw e
     | None =>
         Return (map (fun entry =>
                        mkEntry (row_id entry) (row_plate_number entry)
                          (row_timestamp entry) (row_entry_type entry))
                     (match data with Some rows => rows | None => [] end))
     end)
    (fun _ => Return []).

(** The page: the entry list with its toasts, and the loading flag. *)
Record Page : Type := mkPage
  { page : RemoteIndex.State; isLoading : bool }.

(** [loadParkingEntries], given what [parkingService.getAllEntries()]
    does. *)
Definition loadParkingEntries (fetched : Outcome (list ParkingEntry))
    (p : Page) : Page :=
  let p := mkPage (page p) true in
  let tried :=
    try_catch
      (entries <- fetched ;;
       Return (mkPage (RemoteIndex.mkState entries
                         (RemoteIndex.toasts (page p)))
                 (isLoading p)))
      (fun _ =>
         Return (mkPage (RemoteIndex.mkState
                           (RemoteIndex.parkingEntries (page p))
                           (mkToast "Failed to Load Data" true
                            :: RemoteIndex.toasts (page p)))
                   (isLoading p))) in
  (* finally *)
  match tried with
  | Return p' => mkPage (page p') false
  | Throw _ => mkPage (page p) false
  end.

End RemoteLoad.

(** ** Dashboard.tsx: the name of the exported file *)

Module ExportFile.
Import JSDate.

(** [s.split(c)] for a one-character separator. *)
Fixpoint split (c : ascii) (s : string) : list string :=
  match s with
  | EmptyString => [""]
  | String x s' =>
      if (x =? c)%char then "" :: split c s'
      else match split c s' with
           | part :: parts => String x part :: parts
           | [] => [String x ""]
           end
  end.

(** [parts[0]] in a template literal. *)
Definition first (parts : list string) : string :=
  match parts with
  | part :: _ => part
  | [] => "undefined"
  end.

Definition download (now : Z) : string :=
  "smartpark-logs-" ++ first (split "T" (toISOString now)) ++ ".csv".

End ExportFile.

(** ** The vocabulary of the further properties *)

Module More.
Import JSString Spec.

(** The letters that the normalizer replaces by digits. *)
Definition replaced_letter (c : ascii) : bool :=
  existsb (fun rule => (fst rule =? c)%char) substitution_table.

(** The four rules that the final revision adds to the table. *)
Definition added_rules (c : ascii) : ascii :=
  if (c =? "Q")%char then "0"%char
  else if (c =? "L")%char then "1"%char
  else if (c =? "D")%char then "0"%char
  else if (c =? "U")%char then "0"%char
  else c.

(** The table of the revision before the final one, and its chain of
    replacements on one character. *)
Definition earlier_table : list (ascii * ascii) :=
  [("O", "0"); ("I", "1"); ("S", "5"); ("Z", "2"); ("G", "6"); ("B", "8")]%char.

Definition earlier_chain (c : ascii) : ascii :=
  fold_left
    (fun c rule =>
       if matches (CameraScanner.re_char (fst rule)) c then snd rule else c)
    earlier_table c.

(** How many characters of a string satisfy [P]. *)
Definition count (P : ascii -> bool) (s : string) : nat :=
  List.length (filter P (chars s)).

(** A plate as the scanner hands it on: 4 to 8 characters of [[A-Z0-9]]. *)
Definition scanned_plate (p : string) : Prop :=
  (4 <= String.length p <= 8)%nat
  /\ Forall (fun c => plate_char c = true) (chars p).

(** Two entries for the same plate and direction are at least five minutes
    apart. *)
Definition apart (a b : ParkingEntry) : Prop :=
  plate_number a = plate_number b -> entry_type a = entry_type b ->
  fiveMinutes <= Z.abs (timestamp a - timestamp b).

(** Newest first. *)
Definition not_older (a b : ParkingEntry) : Prop := timestamp b <= timestamp a.

(** The entry that passes the three filters of the dashboard. *)
Definition passes (tz : Z -> Z) (now : Z) (searchTerm : string)
    (filterType : Dashboard.FilterType) (dateFilter : Dashboard.DateFilter)
    (entry : ParkingEntry) : bool :=
  ((if truthy searchTerm
    then includes (toLowerCase (plate_number entry)) (toLowerCase searchTerm)
    else true)
   && match filterType with
      | Dashboard.OnlyType t => EntryType_eqb (entry_type entry) t
      | Dashboard.AllTypes => true
      end
   && match dateFilter with
      | Dashboard.Today =>
          (JSDate.toDateString tz (timestamp entry)
           =? JSDate.toDateString tz now)%string
      | Dashboard.Week => now - 7 * 24 * 60 * 60 * 1000 <=? timestamp entry
      | Dashboard.Month => now - 30 * 24 * 60 * 60 * 1000 <=? timestamp entry
      | Dashboard.AllDates => true
      end)%bool.

(** A string without the character [c]. *)
Definition free_of (c : ascii) (s : string) : bool :=
  forallb (fun x => negb (x =? c)%char) (chars s).

(** The three fields of the line of an entry in the export. *)
Definition csv_fields (e : ParkingEntry) : list string :=
  [plate_number e; EntryType_str (entry_type e);
   JSDate.toISOString (timestamp e)].

(** The calendar date of a time value in UTC, as [YYYY-MM-DD]. *)
Definition utc_date (t : Z) : string :=
  JSDate.year_string (JSDate.YearFromTime t) ++ "-"
  ++ JSDate.digits 2 (JSDate.MonthFromTime t) ++ "-"
  ++ JSDate.digits 2 (JSDate.DateFromTime t).

(** The select of recent rows answered, without error, with a row. *)
Definition found_rows (r : ParkingService.Response (list string)) : bool :=
  match r with
  | ParkingService.Resolved (Some (_ :: _)) None => true
  | _ => false
  end.

(** The entry of the row that the insert answered with, without error. *)
Definition created_row (r : ParkingService.Response ParkingService.DatabaseParkingEntry)
  : option ParkingEntry :=
  match r with
  | ParkingService.Resolved (Some d) None =>
      Some (mkEntry (ParkingService.row_id d) (ParkingService.row_plate_number d)
              (ParkingService.row_timestamp d) (ParkingService.row_entry_type d))
  | _ => None
  end.

(** What holds of the application between two events: the extracted text
    is empty or a plate as the scanner hands it on, and so is every plate of
    the log. *)
Definition plates_scanned (st : LocalApp.State) : Prop :=
  (CameraScanner.extractedText (LocalApp.scanner st) = ""
   \/ scanned_plate (CameraScanner.extractedText (LocalApp.scanner st)))
  /\ Forall (fun e => scanned_plate (plate_number e))
       (LocalIndex.parkingEntries (LocalApp.index st)).

(** The byte stored by the contrast step of the earlier revision for the
    gray level [g]. *)
Definition earlier_contrast (g : Z) : Z :=
  Revision2Image.stored (JSNumber.of_byte g).

(** The bytes stored for the gray levels 0 to 255. *)
Definition contrast_table : list Z :=
  Eval vm_compute in map (fun n => earlier_contrast (Z.of_nat n)) (seq 0 256).

End More.

(** * Properties *)

(** A fact about every character, by cases on the character. *)
Ltac each_char c :=
  destruct c as [[] [] [] [] [] [] [] []]; vm_compute; try reflexivity;
  try discriminate; auto.

(** ** Characters and strings *)

Section StringFacts.
Import JSString Spec.

Lemma append_assoc (a b c : string) : (a ++ b) ++ c = a ++ (b ++ c).
Proof. induction a as [|x a IH]; cbn; [reflexivity|]. rewrite IH. reflexivity. Qed.

Lemma append_empty_r (a : string) : a ++ "" = a.
Proof. induction a as [|x a IH]; cbn; [reflexivity|]. rewrite IH. reflexivity. Qed.

Lemma chars_map_chars f s : chars (map_chars f s) = map f (chars s).
Proof. induction s as [|c s IH]; cbn; [reflexivity|]. f_equal. exact IH. Qed.

Lemma length_map_chars f s : String.length (map_chars f s) = String.length s.
Proof. induction s as [|c s IH]; cbn; [reflexivity|]. f_equal. exact IH. Qed.

Lemma map_chars_compose f g s :
  map_chars g (map_chars f s) = map_chars (fun c => g (f c)) s.
Proof. induction s as [|c s IH]; cbn; [reflexivity|]. f_equal. exact IH. Qed.

Lemma map_chars_ext f g s :
  (forall c, In c (chars s) -> f c = g c) -> map_chars f s = map_chars g s.
Proof.
  induction s as [|c s IH]; cbn; intros H; [reflexivity|].
  rewrite (H c) by (left; reflexivity). f_equal. apply IH.
  intros d Hd. apply H. right. exact Hd.
Qed.

Lemma chars_keep P s : chars (keep P s) = filter P (chars s).
Proof.
  unfold chars. induction s as [|c s IH]; cbn; [reflexivity|].
  destruct (P c); cbn; rewrite IH; reflexivity.
Qed.

(** Removing the matches of a regular expression keeps the characters
    that do not match. *)
Lemma replace_g_empty re s :
  replace_g re "" s = keep (fun c => negb (matches re c)) s.
Proof.
  induction s as [|c s IH]; cbn; [reflexivity|].
  destruct (matches re c); cbn; rewrite IH; reflexivity.
Qed.

(** Replacing the matches by one character maps every character. *)
Lemma replace_g_char re d s :
  replace_g re (String d "") s
  = map_chars (fun c => if matches re c then d else c) s.
Proof.
  induction s as [|c s IH]; cbn; [reflexivity|].
  destruct (matches re c); cbn; rewrite IH; reflexivity.
Qed.

Lemma keep_ext P Q s : (forall c, P c = Q c) -> keep P s = keep Q s.
Proof.
  intros H. induction s as [|c s IH]; cbn; [reflexivity|].
  rewrite H, IH. reflexivity.
Qed.

(** [/[^A-Z0-9]/gi] matches exactly what is outside [[A-Za-z0-9]]. *)
Lemma re_not_alnum_matches c :
  negb (matches CameraScanner.re_not_alnum c) = alnum c.
Proof. each_char c. Qed.

Lemma upcase_alnum c : alnum c = true -> plate_char (upcase c) = true.
Proof. each_char c. Qed.

Lemma test_chars re s :
  test re s = true <-> Exists (fun c => matches re c = true) (chars s).
Proof.
  induction s as [|c s IH]; cbn.
  - split; [discriminate | intros H; inversion H].
  - rewrite orb_true_iff, IH. split.
    + intros [H | H]; [left | right]; assumption.
    + intros H. inversion H; subst; [left | right]; assumption.
Qed.

Lemma truthy_nonempty s : truthy s = true <-> s <> "".
Proof. destruct s; cbn; split; congruence. Qed.

End StringFacts.

(** ** Plate normalizer *)

Section PlateNormalizer.
Import JSString Spec CameraScanner.

Lemma chain_substitute c : chain c = substitute c.
Proof. each_char c. Qed.

Lemma substitute_plate_char c :
  plate_char c = true -> plate_char (substitute c) = true.
Proof. each_char c. Qed.

Lemma cleanPlateNumber_unfold text :
  cleanPlateNumber text = map_chars chain (stripped_upper text).
Proof.
  unfold cleanPlateNumber, stripped_upper.
  rewrite replace_g_empty.
  rewrite (keep_ext _ alnum) by apply re_not_alnum_matches.
  rewrite !replace_g_char, !map_chars_compose. reflexivity.
Qed.

Lemma stripped_upper_plate_chars raw :
  Forall (fun c => plate_char c = true) (chars (stripped_upper raw)).
Proof.
  unfold stripped_upper, toUpperCase.
  rewrite chars_map_chars, chars_keep.
  apply Forall_forall. intros c Hc.
  apply in_map_iff in Hc as (d & <- & Hd).
  apply filter_In in Hd as [_ Hd]. apply upcase_alnum. exact Hd.
Qed.

Lemma cleanPlateNumber_plate_chars (text : string) (c : ascii) :
  In c (chars (cleanPlateNumber text)) -> plate_char c = true.
Proof.
  rewrite cleanPlateNumber_unfold, chars_map_chars. intros Hc.
  apply in_map_iff in Hc as (d & <- & Hd).
  rewrite chain_substitute. apply substitute_plate_char.
  pose proof (stripped_upper_plate_chars text) as H.
  rewrite Forall_forall in H. apply H. exact Hd.
Qed.

(** C3.  For every raw OCR string, every character of the normalized
    plate is in [[A-Z0-9]]. *)
Theorem cleanPlateNumber_charset (text : string) :
  Forall (fun c => plate_char c = true) (chars (cleanPlateNumber text)).
Proof.
  apply Forall_forall. intros c Hc.
  exact (cleanPlateNumber_plate_chars text c Hc).
Qed.

(** C4.  The normalizer replaces every character of the stripped,
    upper-cased string by what the first applicable rule of the table
    O->0, Q->0, I->1, L->1, S->5, Z->2, G->6, B->8, D->0, U->0 makes of
    it, and leaves the other characters as they are; ["O0Q"] becomes
    ["000"]. *)
Theorem cleanPlateNumber_table (text : string) :
  cleanPlateNumber text = map_chars substitute (stripped_upper text)
  /\ cleanPlateNumber "O0Q" = "000".
Proof.
  split; [|reflexivity].
  rewrite cleanPlateNumber_unfold.
  apply map_chars_ext. intros c _. apply chain_substitute.
Qed.

End PlateNormalizer.

(** ** Acceptance of a capture *)

Section Acceptance.
Import JSString Spec CameraScanner.

Lemma matches_letters c : matches re_letters c = is_upper c.
Proof. reflexivity. Qed.

Lemma matches_numbers c : matches re_numbers c = is_digit c.
Proof. reflexivity. Qed.

Lemma isValidPlateNumber_iff plateNumber :
  isValidPlateNumber plateNumber = true <->
  (4 <= String.length plateNumber <= 8)%nat
  /\ (Exists (fun c => is_upper c = true) (chars plateNumber)
      \/ Exists (fun c => is_digit c = true) (chars plateNumber)).
Proof.
  unfold isValidPlateNumber.
  destruct (String.length plateNumber <? 4)%nat eqn:E4.
  - apply Nat.ltb_lt in E4. cbn. split; [discriminate | lia].
  - apply Nat.ltb_ge in E4. cbn [orb].
    destruct (8 <? String.length plateNumber)%nat eqn:E8.
    + apply Nat.ltb_lt in E8. split; [discriminate | lia].
    + apply Nat.ltb_ge in E8.
      rewrite orb_true_iff, !test_chars. split.
      * intros H. split; [lia | exact H].
      * intros [_ H]. exact H.
Qed.

(** In a normalized plate the letters are the upper-case ones. *)
Lemma letters_of_plate s :
  Forall (fun c => plate_char c = true) (chars s) ->
  Exists (fun c => letter c = true) (chars s)
  <-> Exists (fun c => is_upper c = true) (chars s).
Proof.
  intros Hall. rewrite !Exists_exists. rewrite Forall_forall in Hall.
  split; intros (c & Hin & Hc); exists c; (split; [exact Hin|]).
  - specialize (Hall c Hin). revert Hall Hc. unfold plate_char, letter.
    destruct c as [[] [] [] [] [] [] [] []]; vm_compute; congruence.
  - unfold letter. rewrite Hc. reflexivity.
Qed.

Lemma Q_gt_iff a b : Q_gt a b = true <-> (b < a)%Q.
Proof.
  unfold Q_gt. rewrite negb_true_iff. split.
  - intros H. apply Qnot_le_lt. intros Hle.
    apply Qle_bool_iff in Hle. congruence.
  - intros H. destruct (Qle_bool a b) eqn:E; [|reflexivity].
    apply Qle_bool_iff in E. exfalso. exact (Qlt_not_le _ _ H E).
Qed.

Lemma accepted_iff text confidence :
  (isValidPlateNumber (cleanPlateNumber text) && Q_gt confidence 30)%bool = true
  <-> acceptable (cleanPlateNumber text) confidence.
Proof.
  unfold acceptable.
  rewrite andb_true_iff, isValidPlateNumber_iff, Q_gt_iff.
  rewrite (letters_of_plate (cleanPlateNumber text)).
  - tauto.
  - apply Forall_forall. apply cleanPlateNumber_plate_chars.
Qed.

(** C2.  The cleaned text of a capture becomes the extracted plate, which
    confirming then records, exactly when its length is within [4,8], it
    has a letter or a digit, and the confidence is above 30; in every other
    case the extracted text is empty and confirming records nothing. *)
Theorem capture_acceptance (text : string) (confidence : Q) (st : State) :
  let cleaned := cleanPlateNumber text in
  let st' := capture text confidence st in
  (acceptable cleaned confidence <->
   extractedText st' = cleaned
   /\ fst (confirmPlate st') = Some (cleaned, selectedEntryType st))
  /\ (~ acceptable cleaned confidence <->
      extractedText st' = "" /\ fst (confirmPlate st') = None).
Proof.
  cbv zeta. pose proof (accepted_iff text confidence) as A.
  unfold capture.
  destruct (isValidPlateNumber (cleanPlateNumber text) && Q_gt confidence 30)%bool
    eqn:E.
  - assert (acceptable (cleanPlateNumber text) confidence) as Hacc
        by (apply A; reflexivity).
    assert (truthy (cleanPlateNumber text) = true) as Ht.
    { destruct Hacc as [[Hlen _] _].
      destruct (cleanPlateNumber text); [cbn in Hlen; lia | reflexivity]. }
    unfold confirmPlate. cbn [extractedText selectedEntryType]. rewrite Ht.
    cbn [fst]. split; split.
    + intros _. split; reflexivity.
    + intros _. exact Hacc.
    + intros H. contradiction.
    + intros [_ H]. discriminate H.
  - assert (~ acceptable (cleanPlateNumber text) confidence) as Hrej.
    { intros H. apply A in H. discriminate H. }
    unfold confirmPlate. cbn [extractedText selectedEntryType truthy fst].
    split; split.
    + intros H. contradiction.
    + intros [_ H]. discriminate H.
    + intros _. split; reflexivity.
    + intros _. exact Hrej.
Qed.

End Acceptance.

(** ** Dates *)

Section DateFacts.
Import JSDate Spec.

(** Looks up the entry of a month table for a given month. *)
Ltac month_entry :=
  unfold DaysBeforeMonth, DaysInMonth;
  repeat match goal with
         | |- context [Z.to_nat ?e] =>
             let v := eval vm_compute in (Z.to_nat e) in
             change (Z.to_nat e) with v
         end;
  cbn [nth].

Lemma month_cases m : 1 <= m <= 12 ->
  m = 1 \/ m = 2 \/ m = 3 \/ m = 4 \/ m = 5 \/ m = 6 \/ m = 7 \/ m = 8
  \/ m = 9 \/ m = 10 \/ m = 11 \/ m = 12.
Proof. lia. Qed.

Lemma InLeapYear_bounds y : 0 <= InLeapYear y <= 1.
Proof.
  unfold InLeapYear.
  destruct (y mod 4 =? 0), (y mod 100 =? 0), (y mod 400 =? 0); cbn; lia.
Qed.

Lemma InLeapYear_period y k : InLeapYear (y + k * 400) = InLeapYear y.
Proof.
  unfold InLeapYear.
  replace ((y + k * 400) mod 4) with (y mod 4)
    by (Z.to_euclidean_division_equations; lia).
  replace ((y + k * 400) mod 100) with (y mod 100)
    by (Z.to_euclidean_division_equations; lia).
  replace ((y + k * 400) mod 400) with (y mod 400)
    by (Z.to_euclidean_division_equations; lia).
  reflexivity.
Qed.

Lemma DaysInMonth_le_31 m leap :
  1 <= m <= 12 -> 0 <= leap <= 1 -> DaysInMonth m leap <= 31.
Proof.
  intros Hm Hl. apply month_cases in Hm.
  repeat (destruct Hm as [-> | Hm]); try subst m; month_entry; lia.
Qed.

(** Turns boolean comparisons in the context into propositions. *)
Ltac bools :=
  repeat match goal with
         | E : (_ =? _) = true |- _ => apply Z.eqb_eq in E
         | E : (_ =? _) = false |- _ => apply Z.eqb_neq in E
         | E : (_ <? _) = true |- _ => apply Z.ltb_lt in E
         | E : (_ <? _) = false |- _ => apply Z.ltb_ge in E
         | E : (_ <=? _) = true |- _ => apply Z.leb_le in E
         | E : (_ <=? _) = false |- _ => apply Z.leb_gt in E
         end.

(** The year of the cycle, and the day of that year (which starts on 1
    March); day 365 is 29 February of the next calendar year. *)
Lemma year_of_cycle doe :
  0 <= doe < 146097 ->
  let yoe := (doe - doe / 1460 + doe / 36524 - doe / 146096) / 365 in
  let doy := doe - (365 * yoe + yoe / 4 - yoe / 100) in
  0 <= yoe <= 399 /\ 0 <= doy <= 365
  /\ (doy = 365 -> InLeapYear (yoe + 1) = 1).
Proof.
  intros Hd. cbv zeta.
  set (yoe := (doe - doe / 1460 + doe / 36524 - doe / 146096) / 365).
  assert ((doe - doe / 1460 + doe / 36524 - doe / 146096) / 365 = yoe) as Ey
      by reflexivity.
  clearbody yoe. unfold InLeapYear.
  destruct ((yoe + 1) mod 4 =? 0) eqn:E4;
    destruct ((yoe + 1) mod 100 =? 0) eqn:E100;
    destruct ((yoe + 1) mod 400 =? 0) eqn:E400; cbn [negb]; bools;
    Z.to_euclidean_division_equations; lia.
Qed.

(** The month and the day of the month of a day of the year. *)
Lemma month_of_year doy leap :
  0 <= doy <= 364 + leap -> 0 <= leap <= 1 ->
  let mp := (5 * doy + 2) / 153 in
  let d := doy - (153 * mp + 2) / 5 + 1 in
  let m := if mp <? 10 then mp + 3 else mp - 9 in
  1 <= m <= 12 /\ 1 <= d <= DaysInMonth m leap
  /\ (if 2 <? m then m - 3 else m + 9) = mp.
Proof.
  intros Hdoy Hl. cbv zeta.
  set (mp := (5 * doy + 2) / 153).
  assert (0 <= mp <= 11) as Hmp
      by (subst mp; Z.to_euclidean_division_equations; lia).
  assert (mp = 0 \/ mp = 1 \/ mp = 2 \/ mp = 3 \/ mp = 4 \/ mp = 5 \/ mp = 6
          \/ mp = 7 \/ mp = 8 \/ mp = 9 \/ mp = 10 \/ mp = 11) as C by lia.
  assert ((5 * doy + 2) / 153 = mp) as Emp by reflexivity. clearbody mp.
  repeat (destruct C as [C | C]); subst mp;
    cbn [Z.ltb Z.compare Pos.compare Pos.compare_cont Z.add Z.sub Z.opp
         Z.pos_sub Pos.add Pos.succ Pos.pred_double Z.succ_double
         Z.pred_double Z.double Pos.add_carry];
    month_entry;
    (split; [lia|]); (split; [|reflexivity]);
    Z.to_euclidean_division_equations; lia.
Qed.

(** Only February depends on the leap year. *)
Lemma DaysInMonth_leap m leap leap' :
  1 <= m <= 12 -> m <> 2 -> DaysInMonth m leap = DaysInMonth m leap'.
Proof.
  intros Hm Hne. apply month_cases in Hm.
  repeat (destruct Hm as [-> | Hm]); try subst m; first [month_entry; reflexivity | lia].
Qed.

(** On a day of the 400-year cycle: the calendar date is in range, the day
    of the month exists in that month, and the date leads back to the
    day. *)
Lemma civil_of_doe_spec doe :
  0 <= doe < 146097 ->
  let '(yoe, m, d) := civil_of_doe doe in
  0 <= yoe <= 399 /\ 1 <= m <= 12
  /\ 1 <= d <= DaysInMonth m (InLeapYear (yoe + (if m <=? 2 then 1 else 0)))
  /\ doe_of_civil yoe m d = doe.
Proof.
  intros Hd. unfold civil_of_doe. cbv zeta.
  pose proof (year_of_cycle doe Hd) as Hy. cbv zeta in Hy.
  set (yoe := (doe - doe / 1460 + doe / 36524 - doe / 146096) / 365) in *.
  set (doy := doe - (365 * yoe + yoe / 4 - yoe / 100)) in *.
  destruct Hy as (Hyoe & Hdoy & Hleap).
  pose proof (InLeapYear_bounds (yoe + 1)) as Hl.
  pose proof (month_of_year doy (InLeapYear (yoe + 1)) ltac:(lia) Hl) as Hm.
  cbv zeta in Hm.
  set (mp := (5 * doy + 2) / 153) in *.
  set (m := if mp <? 10 then mp + 3 else mp - 9) in *.
  set (d := doy - (153 * mp + 2) / 5 + 1) in *.
  destruct Hm as (Hm & Hd' & Hmp).
  split; [exact Hyoe|]. split; [exact Hm|]. split.
  - destruct (m <=? 2) eqn:E; [exact Hd'|]. bools.
    rewrite (DaysInMonth_leap m _ (InLeapYear (yoe + 1))) by lia.
    replace (yoe + 0) with yoe in * by lia. exact Hd'.
  - unfold doe_of_civil. rewrite Hmp. subst d doy. lia.
Qed.

(** The calendar date of a day number leads back to the day number. *)
Lemma days_from_civil_from_days z :
  let '(y, m, d) := civil_from_days z in
  days_from_civil y m d = z /\ 1 <= m <= 12 /\ 1 <= d <= 31
  /\ d <= DaysInMonth m (InLeapYear y).
Proof.
  unfold civil_from_days.
  pose proof (civil_of_doe_spec ((z + 719468) mod 146097)
                ltac:(apply Z.mod_pos_bound; lia)) as E.
  destruct (civil_of_doe ((z + 719468) mod 146097)) as [[yoe m] d].
  destruct E as (Hy & Hm & Hd & Hdoe).
  replace (yoe + (z + 719468) / 146097 * 400 + (if m <=? 2 then 1 else 0))
    with (yoe + (if m <=? 2 then 1 else 0) + (z + 719468) / 146097 * 400)
    by lia.
  rewrite InLeapYear_period.
  pose proof (DaysInMonth_le_31 m _ Hm
                (InLeapYear_bounds (yoe + (if m <=? 2 then 1 else 0)))).
  split; [|lia].
  unfold days_from_civil.
  replace (yoe + (if m <=? 2 then 1 else 0) + (z + 719468) / 146097 * 400
           - (if m <=? 2 then 1 else 0))
    with (yoe + (z + 719468) / 146097 * 400) by lia.
  rewrite Z.div_add, Z_mod_plus_full by lia.
  rewrite Z.div_small, Z.mod_small by lia.
  rewrite Hdoe.
  pose proof (Z.div_mod (z + 719468) 146097 ltac:(lia)). lia.
Qed.

(** The day number of a calendar date, in the terms of the standard. *)
Lemma days_from_civil_spec y m d :
  1 <= m <= 12 ->
  days_from_civil y m d
  = DayFromYear y + DaysBeforeMonth m (InLeapYear y) + d - 1.
Proof.
  intros Hm. pose proof (month_cases m Hm) as C.
  unfold days_from_civil, doe_of_civil, DayFromYear, InLeapYear.
  destruct (m <=? 2) eqn:E1; destruct (2 <? m) eqn:E2;
    [apply Z.leb_le in E1; apply Z.ltb_lt in E2; lia
    |apply Z.leb_le in E1; clear E2
    |apply Z.ltb_lt in E2; clear E1
    |apply Z.leb_gt in E1; apply Z.ltb_ge in E2; lia];
  destruct (y mod 4 =? 0) eqn:E4; destruct (y mod 100 =? 0) eqn:E100;
    destruct (y mod 400 =? 0) eqn:E400; cbn [negb];
    repeat match goal with
           | E : (_ =? _) = true |- _ => apply Z.eqb_eq in E
           | E : (_ =? _) = false |- _ => apply Z.eqb_neq in E
           end;
  repeat (destruct C as [-> | C]); try subst m; try lia;
    month_entry; Z.to_euclidean_division_equations; lia.
Qed.

Lemma DayFromYear_succ y : DayFromYear (y + 1) = DayFromYear y + 365 + InLeapYear y.
Proof.
  unfold DayFromYear, InLeapYear.
  destruct (y mod 4 =? 0) eqn:E4; destruct (y mod 100 =? 0) eqn:E100;
    destruct (y mod 400 =? 0) eqn:E400; cbn [negb];
    repeat match goal with
           | E : (_ =? _) = true |- _ => apply Z.eqb_eq in E
           | E : (_ =? _) = false |- _ => apply Z.eqb_neq in E
           end;
    Z.to_euclidean_division_equations; lia.
Qed.

Lemma day_of_year_bound m d leap :
  1 <= m <= 12 -> 0 <= leap <= 1 -> 1 <= d <= DaysInMonth m leap ->
  0 <= DaysBeforeMonth m leap + d - 1 < 365 + leap.
Proof.
  intros Hm Hl. apply month_cases in Hm.
  repeat (destruct Hm as [-> | Hm]); try subst m; month_entry; lia.
Qed.

(** The year, month and day of a time value are those of the standard: the
    year is the one whose days contain the day of the time value, and the
    month and the day of the month are those of the day of the year. *)
Lemma calendar_fields t :
  let y := YearFromTime t in
  let m := MonthFromTime t in
  let d := DateFromTime t in
  DayFromYear y <= Day t < DayFromYear (y + 1)
  /\ 1 <= m <= 12
  /\ 1 <= d <= DaysInMonth m (InLeapYear y)
  /\ Day t = DayFromYear y + DaysBeforeMonth m (InLeapYear y) + d - 1.
Proof.
  cbv zeta. unfold YearFromTime, MonthFromTime, DateFromTime.
  pose proof (days_from_civil_from_days (Day t)) as H.
  destruct (civil_from_days (Day t)) as [[y m] d]. cbn [fst snd].
  destruct H as (Hdays & Hm & Hd & Hdim).
  rewrite days_from_civil_spec in Hdays by exact Hm.
  pose proof (day_of_year_bound m d _ Hm (InLeapYear_bounds y) ltac:(lia)).
  rewrite DayFromYear_succ. repeat split; lia.
Qed.

Lemma digit_char_val d : 0 <= d <= 9 ->
  JSString.is_digit (digit_char d) = true /\ digit_val (digit_char d) = d
  /\ (digit_char d =? "+")%char = false /\ (digit_char d =? "-")%char = false.
Proof.
  intros H.
  assert (d = 0 \/ d = 1 \/ d = 2 \/ d = 3 \/ d = 4 \/ d = 5 \/ d = 6
          \/ d = 7 \/ d = 8 \/ d = 9) as C by lia.
  repeat (destruct C as [-> | C]; [repeat split; reflexivity|]).
  subst d; repeat split; reflexivity.
Qed.

Lemma take_digits_digits w : forall acc n rest,
  0 <= n ->
  take_digits w acc (digits w n ++ rest)
  = Some (acc * 10 ^ Z.of_nat w + n mod 10 ^ Z.of_nat w, rest).
Proof.
  induction w as [|w IH]; intros acc n rest Hn.
  - cbn [take_digits digits append]. rewrite Z.mod_1_r. f_equal. f_equal.
    change (Z.of_nat 0) with 0. rewrite Z.pow_0_r. lia.
  - cbn [take_digits digits append].
    assert (0 < 10 ^ Z.of_nat w) as Hp by (apply Z.pow_pos_nonneg; lia).
    assert (0 <= (n / 10 ^ Z.of_nat w) mod 10 <= 9) as Hd.
    { pose proof (Z.mod_pos_bound (n / 10 ^ Z.of_nat w) 10 ltac:(lia)). lia. }
    destruct (digit_char_val _ Hd) as (-> & -> & _).
    rewrite IH by assumption. f_equal. f_equal.
    rewrite Nat2Z.inj_succ, Z.pow_succ_r by lia.
    rewrite (Z.mul_comm 10 (10 ^ Z.of_nat w)), Z.rem_mul_r by lia. ring.
Qed.

Lemma take_digits_digits_small w n rest :
  0 <= n < 10 ^ Z.of_nat w ->
  take_digits w 0 (digits w n ++ rest) = Some (n, rest).
Proof.
  intros H. rewrite take_digits_digits by lia.
  rewrite Z.mod_small by lia. reflexivity.
Qed.

Lemma take_year_year_string y rest :
  -999999 <= y <= 999999 ->
  take_year (year_string y ++ rest) = Some (y, rest).
Proof.
  intros Hy. unfold year_string.
  destruct ((0 <=? y) && (y <=? 9999))%bool eqn:E4.
  - apply andb_true_iff in E4 as [H0 H1].
    apply Z.leb_le in H0, H1.
    pose proof (take_digits_digits_small 4 y rest ltac:(cbn; lia)) as T.
    cbn [digits append] in T |- *.
    unfold take_year.
    assert (0 <= (y / 10 ^ Z.of_nat 3) mod 10 <= 9) as Hd.
    { pose proof (Z.mod_pos_bound (y / 10 ^ Z.of_nat 3) 10 ltac:(lia)). lia. }
    destruct (digit_char_val _ Hd) as (_ & _ & -> & ->).
    exact T.
  - destruct (y <? 0) eqn:En.
    + apply Z.ltb_lt in En.
      change (("-" ++ digits 6 (- y)) ++ rest)
        with (String "-" (digits 6 (- y) ++ rest)).
      unfold take_year. cbn [Ascii.eqb Bool.eqb].
      rewrite take_digits_digits_small by (cbn; lia).
      destruct (- y =? 0) eqn:E0; [apply Z.eqb_eq in E0; lia|].
      f_equal. f_equal. lia.
    + apply Z.ltb_ge in En.
      change (("+" ++ digits 6 y) ++ rest)
        with (String "+" (digits 6 y ++ rest)).
      unfold take_year. cbn [Ascii.eqb Bool.eqb].
      apply take_digits_digits_small. cbn; lia.
Qed.

Lemma time_fields t :
  0 <= HourFromTime t <= 23 /\ 0 <= MinFromTime t <= 59
  /\ 0 <= SecFromTime t <= 59 /\ 0 <= msFromTime t <= 999
  /\ MakeDate (Day t)
       (MakeTime (HourFromTime t) (MinFromTime t) (SecFromTime t) (msFromTime t))
     = t.
Proof.
  unfold HourFromTime, MinFromTime, SecFromTime, msFromTime, MakeDate,
    MakeTime, Day, msPerDay.
  repeat split; try (apply Z.mod_pos_bound; lia);
    try (match goal with |- ?a mod ?b <= _ =>
           pose proof (Z.mod_pos_bound a b ltac:(lia)); lia end).
  Z.to_euclidean_division_equations. lia.
Qed.

Lemma year_bounds t : in_range t = true -> -999999 <= YearFromTime t <= 999999.
Proof.
  unfold in_range, maxTime. intros H. apply andb_true_iff in H as [H0 H1].
  apply Z.leb_le in H0, H1.
  unfold YearFromTime, civil_from_days, Day, msPerDay.
  pose proof (civil_of_doe_spec ((t / 86400000 + 719468) mod 146097)
                ltac:(apply Z.mod_pos_bound; lia)) as E.
  destruct (civil_of_doe ((t / 86400000 + 719468) mod 146097)) as [[yoe m] d].
  destruct E as (Hyoe & _).
  cbn [fst]. destruct (m <=? 2); Z.to_euclidean_division_equations; lia.
Qed.

(** Reading back the ISO string of a date gives the date. *)
Lemma parse_toISOString t : in_range t = true -> parse (toISOString t) = Some t.
Proof.
  intros Hr. unfold toISOString, parse.
  pose proof (year_bounds t Hr) as Hy.
  pose proof (days_from_civil_from_days (Day t)) as Hc.
  unfold YearFromTime, MonthFromTime, DateFromTime in *.
  destruct (civil_from_days (Day t)) as [[y m] d]. cbn [fst snd] in *.
  destruct Hc as (Hdays & Hm & Hd & Hdim).
  destruct (time_fields t) as (Hh & Hmi & Hs & Hms & Ht).
  rewrite take_year_year_string by assumption.
  repeat (cbn [append expect Ascii.eqb Bool.eqb];
          rewrite take_digits_digits_small by (cbn; lia)).
  cbn [append expect Ascii.eqb Bool.eqb].
  replace ((1 <=? m) && (m <=? 12) && (1 <=? d)
           && (d <=? DaysInMonth m (InLeapYear y))
           && (HourFromTime t <=? 23) && (MinFromTime t <=? 59)
           && (SecFromTime t <=? 59))%bool with true
    by (symmetry; repeat (apply andb_true_iff; split); apply Z.leb_le; lia).
  rewrite Hdays, Ht, Hr. reflexivity.
Qed.

(** *** The date string *)

Lemma append_inj_length (a a' b b' : string) :
  String.length a = String.length a' ->
  a ++ b = a' ++ b' -> a = a' /\ b = b'.
Proof.
  revert a'. induction a as [|c a IH]; intros [|c' a'] Hl H;
    try discriminate Hl.
  - split; [reflexivity | exact H].
  - cbn in Hl, H. injection H as -> H. injection Hl as Hl.
    destruct (IH a' Hl H) as [-> ->]. split; reflexivity.
Qed.

Lemma string_tail_eq (c : ascii) (a b : string) :
  String c a = String c b -> a = b.
Proof. intros H. injection H as H. exact H. Qed.

Lemma length_digits w n : String.length (digits w n) = w.
Proof. induction w as [|w IH]; cbn; [reflexivity|]. rewrite IH. reflexivity. Qed.

Lemma digits_inj w n n' rest rest' :
  0 <= n < 10 ^ Z.of_nat w -> 0 <= n' < 10 ^ Z.of_nat w ->
  digits w n ++ rest = digits w n' ++ rest' -> n = n' /\ rest = rest'.
Proof.
  intros Hn Hn' H. apply (f_equal (take_digits w 0)) in H.
  rewrite !take_digits_digits_small in H by assumption.
  injection H as -> ->. split; reflexivity.
Qed.

Lemma length_day_name w : 0 <= w <= 6 -> String.length (day_name w) = 3%nat.
Proof.
  intros H.
  assert (w = 0 \/ w = 1 \/ w = 2 \/ w = 3 \/ w = 4 \/ w = 5 \/ w = 6) as C by lia.
  repeat (destruct C as [-> | C]; [reflexivity|]). subst w. reflexivity.
Qed.

Lemma length_month_name m : 1 <= m <= 12 -> String.length (month_name m) = 3%nat.
Proof.
  intros H. apply month_cases in H.
  repeat (destruct H as [-> | H]; [reflexivity|]). subst m. reflexivity.
Qed.

Lemma month_name_inj m m' :
  1 <= m <= 12 -> 1 <= m' <= 12 -> month_name m = month_name m' -> m = m'.
Proof.
  intros H H'. apply month_cases in H. apply month_cases in H'.
  repeat (destruct H as [-> | H]);
    try subst m;
    repeat (destruct H' as [-> | H']);
    try subst m';
    intros E; first [reflexivity | discriminate E].
Qed.

Lemma year_digits_inj y y' :
  0 <= y <= 999999 -> 0 <= y' <= 999999 ->
  year_digits y = year_digits y' -> y = y'.
Proof.
  intros Hy Hy' H. unfold year_digits in H.
  destruct (y <? 10000) eqn:E1; destruct (y' <? 10000) eqn:E1';
    try destruct (y <? 100000) eqn:E2; try destruct (y' <? 100000) eqn:E2';
    repeat match goal with
           | E : (_ <? _) = true |- _ => apply Z.ltb_lt in E
           | E : (_ <? _) = false |- _ => apply Z.ltb_ge in E
           end;
    try (apply (f_equal String.length) in H; rewrite !length_digits in H;
         discriminate H);
    rewrite <- (append_empty_r (digits _ y)),
            <- (append_empty_r (digits _ y')) in H;
    apply digits_inj in H; cbn; first [tauto | lia].
Qed.

Lemma digits_head w n :
  exists d, 0 <= d <= 9 /\ digits (S w) n = String (digit_char d) (digits w n).
Proof.
  exists ((n / 10 ^ Z.of_nat w) mod 10). split; [|reflexivity].
  pose proof (Z.mod_pos_bound (n / 10 ^ Z.of_nat w) 10 ltac:(lia)). lia.
Qed.

Lemma year_digits_head y :
  exists d rest, 0 <= d <= 9 /\ year_digits y = String (digit_char d) rest.
Proof.
  unfold year_digits.
  destruct (y <? 10000); [|destruct (y <? 100000)];
    match goal with |- context [digits (S ?w) ?n] =>
      destruct (digits_head w n) as (d & Hd & ->) end;
    eexists _, _; (split; [exact Hd | reflexivity]).
Qed.

Lemma signed_year_inj y y' :
  -999999 <= y <= 999999 -> -999999 <= y' <= 999999 ->
  signed_year y = signed_year y' -> y = y'.
Proof.
  intros Hy Hy' H. unfold signed_year in H.
  destruct (y <? 0) eqn:E; destruct (y' <? 0) eqn:E';
    repeat match goal with
           | E : (_ <? _) = true |- _ => apply Z.ltb_lt in E
           | E : (_ <? _) = false |- _ => apply Z.ltb_ge in E
           end.
  - injection H as H. apply year_digits_inj in H; lia.
  - destruct (year_digits_head y') as (d & rest & Hd & Hy'').
    rewrite Hy'' in H. injection H as H _.
    destruct (digit_char_val d Hd) as (_ & _ & _ & Hm).
    rewrite <- H in Hm. discriminate Hm.
  - destruct (year_digits_head y) as (d & rest & Hd & Hy'').
    rewrite Hy'' in H. injection H as H _.
    destruct (digit_char_val d Hd) as (_ & _ & _ & Hm).
    rewrite H in Hm. discriminate Hm.
  - apply year_digits_inj in H; lia.
Qed.

(** Two dates have the same date string exactly when they fall on the
    same day of the local calendar. *)
Lemma toDateString_same_day (tz : Z -> Z) (t t' : Z) :
  in_range (t + tz t) = true -> in_range (t' + tz t') = true ->
  toDateString tz t = toDateString tz t'
  <-> Day (t + tz t) = Day (t' + tz t').
Proof.
  intros Hr Hr'. unfold toDateString. cbv zeta.
  set (lt := t + tz t) in *. set (lt' := t' + tz t') in *.
  split.
  - intros H.
    pose proof (year_bounds lt Hr) as Hy. pose proof (year_bounds lt' Hr') as Hy'.
    pose proof (days_from_civil_from_days (Day lt)) as Hc.
    pose proof (days_from_civil_from_days (Day lt')) as Hc'.
    unfold YearFromTime, MonthFromTime, DateFromTime, WeekDay in *.
    destruct (civil_from_days (Day lt)) as [[y m] d].
    destruct (civil_from_days (Day lt')) as [[y' m'] d'].
    cbn [fst snd] in *.
    destruct Hc as (Hdays & Hm & Hd & _).
    destruct Hc' as (Hdays' & Hm' & Hd' & _).
    apply append_inj_length in H as [_ H].
    2:{ rewrite !length_day_name; [reflexivity | |];
        match goal with |- _ <= ?a mod 7 <= _ =>
          pose proof (Z.mod_pos_bound a 7 ltac:(lia)); lia end. }
    apply string_tail_eq in H.
    apply append_inj_length in H as [Hmn H];
      [|rewrite !length_month_name by lia; reflexivity].
    apply month_name_inj in Hmn; [|lia|lia].
    apply string_tail_eq in H.
    apply digits_inj in H as [Hdd H]; [|cbn; lia|cbn; lia].
    apply string_tail_eq in H.
    apply signed_year_inj in H; [|lia|lia].
    subst. congruence.
  - intros H. unfold YearFromTime, MonthFromTime, DateFromTime, WeekDay.
    rewrite H. reflexivity.
Qed.

(** *** The built-ins on some known values *)

Example toISOString_epoch : toISOString 0 = "1970-01-01T00:00:00.000Z".
Proof. reflexivity. Qed.

Example toISOString_leap_day :
  toISOString 1709251199999 = "2024-02-29T23:59:59.999Z".
Proof. reflexivity. Qed.

Example toISOString_before_epoch :
  toISOString (-1) = "1969-12-31T23:59:59.999Z".
Proof. reflexivity. Qed.

Example toISOString_last : toISOString maxTime = "+275760-09-13T00:00:00.000Z".
Proof. reflexivity. Qed.

Example toISOString_first :
  toISOString (- maxTime) = "-271821-04-20T00:00:00.000Z".
Proof. reflexivity. Qed.

Example parse_iso : parse "2023-11-14T22:13:20.000Z" = Some 1700000000000.
Proof. reflexivity. Qed.

Example parse_not_a_date : parse "yesterday" = None.
Proof. reflexivity. Qed.

Example parse_no_such_day :
  parse "2023-02-29T00:00:00.000Z" = None
  /\ parse "2024-02-29T00:00:00.000Z" = Some 1709164800000.
Proof. split; reflexivity. Qed.

Example toDateString_utc :
  toDateString (fun _ => 0) 1700000000000 = "Tue Nov 14 2023".
Proof. reflexivity. Qed.

Example toDateString_east :
  toDateString (fun _ => 7200000) 1700000000000 = "Wed Nov 15 2023".
Proof. reflexivity. Qed.

End DateFacts.

(** ** Persistence in local storage *)

Section LocalStorage.
Import JSDate Spec LocalIndex.

Lemma revive_saved e :
  in_range (timestamp e) = true ->
  revive (mkStored (id e) (plate_number e) (toISOString (timestamp e))
            (entry_type e)) = Some e.
Proof.
  intros H. unfold revive. cbn [stored_timestamp].
  rewrite parse_toISOString by exact H. destruct e; reflexivity.
Qed.

Lemma load_save entries st :
  Forall (fun e => in_range (timestamp e) = true) entries ->
  load (save entries) st = Some (mkState entries (toasts st)).
Proof.
  intros H. unfold load, save.
  assert (revive_all
            (map (fun e => mkStored (id e) (plate_number e)
                             (toISOString (timestamp e)) (entry_type e))
                 entries) = Some entries) as ->; [|reflexivity].
  induction H as [|e rest He _ IH]; [reflexivity|].
  cbn [map revive_all]. rewrite revive_saved by exact He.
  rewrite IH. reflexivity.
Qed.

(** C6.  Saving an entry list (timestamps written as ISO-8601 strings) and
    loading it again succeeds and gives back, entry by entry, the same
    plate, direction and timestamp to the second; in fact the same list.
    The timestamps are those a [Date] can hold. *)
Theorem save_load_roundtrip (entries : list ParkingEntry) (st : State) :
  Forall (fun e => in_range (timestamp e) = true) entries ->
  exists st',
    load (save entries) st = Some st'
    /\ map tuple_to_second (parkingEntries st') = map tuple_to_second entries
    /\ parkingEntries st' = entries.
Proof.
  intros H. exists (mkState entries (toasts st)).
  split; [apply load_save; exact H|]. split; reflexivity.
Qed.

Lemma save_load_roundtrip_witness :
  let entries :=
    [mkEntry "k3j2h1g9f" "A8C123" 1718020805123 Entry;
     mkEntry "0a1b2c3d4" "XY21" (-86400001) Exit] in
  exists st',
    load (save entries) (mkState [] []) = Some st'
    /\ map tuple_to_second (parkingEntries st') = map tuple_to_second entries
    /\ parkingEntries st' = entries.
Proof.
  apply (save_load_roundtrip
           [mkEntry "k3j2h1g9f" "A8C123" 1718020805123 Entry;
            mkEntry "0a1b2c3d4" "XY21" (-86400001) Exit]
           (mkState [] [])).
  repeat constructor.
Defined.

End LocalStorage.

(** ** Dashboard: filtering *)

Section DashboardFilter.
Import JSString JSDate Spec Dashboard.

Lemma prefix_iff t : forall s,
  String.prefix t s = true <-> exists after, s = t ++ after.
Proof.
  induction t as [|c t IH]; intros s.
  - split; [intros _; exists s; reflexivity | destruct s; reflexivity].
  - destruct s as [|d s]; simpl.
    + split; [discriminate | intros [after H]; discriminate H].
    + destruct (ascii_dec c d) as [->|Hne].
      * rewrite IH. split; intros [after H]; exists after.
        -- rewrite H. reflexivity.
        -- injection H as H. exact H.
      * split; [discriminate|]. intros [after H]. injection H as H1 _.
        congruence.
Qed.

(** [includes] is the substring test. *)
Lemma includes_iff s t :
  includes s t = true <-> exists before after, s = before ++ t ++ after.
Proof.
  induction s as [|c s IH].
  - cbn [includes]. rewrite orb_false_r, prefix_iff. split.
    + intros [after H]. exists "", after. exact H.
    + intros (before & after & H). exists after.
      destruct before; [exact H | discriminate H].
  - cbn [includes]. rewrite orb_true_iff, prefix_iff, IH. split.
    + intros [[after H] | (before & after & H)].
      * exists "", after. exact H.
      * exists (String c before), after. cbn. rewrite H. reflexivity.
    + intros (before & after & H). destruct before as [|d before].
      * left. exists after. exact H.
      * right. injection H as _ H. exists before, after. exact H.
Qed.

Lemma In_filter_if {A : Type} (b : bool) (f : A -> bool) (l : list A) (x : A) :
  In x (if b then filter f l else l) <-> In x l /\ (b = true -> f x = true).
Proof.
  destruct b.
  - rewrite filter_In. intuition.
  - intuition discriminate.
Qed.

Lemma truthy_false s : truthy s = false -> s = "".
Proof. destruct s; [reflexivity | discriminate]. Qed.

Lemma search_filter_iff searchTerm (e : ParkingEntry) :
  (truthy searchTerm = true ->
   includes (toLowerCase (plate_number e)) (toLowerCase searchTerm) = true)
  <-> plate_contains searchTerm e.
Proof.
  unfold plate_contains. rewrite <- includes_iff.
  destruct (truthy searchTerm) eqn:E.
  - intuition.
  - apply truthy_false in E. subst searchTerm. split; [|intros H _; exact H].
    intros _. apply includes_iff. exists "", (toLowerCase (plate_number e)).
    reflexivity.
Qed.

Lemma type_filter_iff filterType (l : list ParkingEntry) (e : ParkingEntry) :
  In e match filterType with
       | OnlyType t => filter (fun entry => EntryType_eqb (entry_type entry) t) l
       | AllTypes => l
       end
  <-> In e l /\ direction_is filterType e.
Proof.
  destruct filterType as [|t]; cbn [direction_is]; [tauto|].
  rewrite filter_In.
  destruct (entry_type e), t; cbn; intuition congruence.
Qed.

(** The clock and the time zone of the browser. *)
Variable tz : Z -> Z.
Variable now : Z.

Lemma date_filter_iff dateFilter (e : ParkingEntry) :
  (negb (isAllDates dateFilter) = true ->
   match dateFilter with
   | Today => (toDateString tz (timestamp e) =? toDateString tz now)%string
   | Week => now - 7 * 24 * 60 * 60 * 1000 <=? timestamp e
   | Month => now - 30 * 24 * 60 * 60 * 1000 <=? timestamp e
   | AllDates => true
   end = true)
  <-> in_time_window tz now dateFilter e.
Proof.
  destruct dateFilter; cbn [isAllDates negb in_time_window].
  - tauto.
  - rewrite String.eqb_eq. intuition.
  - rewrite Z.leb_le. unfold days. intuition lia.
  - rewrite Z.leb_le. unfold days. intuition lia.
Qed.

(** C7.  An entry is in the filtered list exactly when it is in the entry
    list and satisfies the three predicates together: its plate contains the
    search term (case-insensitively), its direction is the selected one, and
    its timestamp is in the selected time window; a filter set to "all"
    (and an empty search term) constrains nothing. *)
Theorem filteredEntries_and
    (entries : list ParkingEntry) (searchTerm : string)
    (filterType : FilterType) (dateFilter : DateFilter) (e : ParkingEntry) :
  (In e (filteredEntries tz now entries searchTerm filterType dateFilter)
   <-> In e entries
       /\ plate_contains searchTerm e
       /\ direction_is filterType e
       /\ in_time_window tz now dateFilter e)
  /\ plate_contains "" e
  /\ direction_is AllTypes e
  /\ in_time_window tz now AllDates e.
Proof.
  split.
  - unfold filteredEntries. cbv zeta.
    rewrite In_filter_if, date_filter_iff, type_filter_iff, In_filter_if,
      search_filter_iff.
    tauto.
  - split; [|split; exact I].
    exists "", (toLowerCase (plate_number e)). reflexivity.
Qed.

(** The "today" window holds the entries stamped on the same day of the
    local calendar as now. *)
Lemma today_same_day (e : ParkingEntry) :
  in_range (timestamp e + tz (timestamp e)) = true ->
  in_range (now + tz now) = true ->
  in_time_window tz now Today e
  <-> Day (timestamp e + tz (timestamp e)) = Day (now + tz now).
Proof. intros H H'. apply toDateString_same_day; assumption. Qed.

(** The filtered list is the entry list, in its order, without the entries
    that fail one of the predicates. *)
Lemma filteredEntries_filter entries searchTerm filterType dateFilter :
  exists keep : ParkingEntry -> bool,
    filteredEntries tz now entries searchTerm filterType dateFilter
    = filter keep entries
    /\ forall e, keep e = true <->
         plate_contains searchTerm e /\ direction_is filterType e
         /\ in_time_window tz now dateFilter e.
Proof.
  pose (p1 := fun entry : ParkingEntry =>
                if truthy searchTerm
                then includes (toLowerCase (plate_number entry))
                       (toLowerCase searchTerm)
                else true).
  pose (p2 := fun entry : ParkingEntry =>
                match filterType with
                | OnlyType t => EntryType_eqb (entry_type entry) t
                | AllTypes => true
                end).
  pose (p3 := fun entry : ParkingEntry =>
                match dateFilter with
                | Today =>
                    (toDateString tz (timestamp entry) =? toDateString tz now)%string
                | Week => now - 7 * 24 * 60 * 60 * 1000 <=? timestamp entry
                | Month => now - 30 * 24 * 60 * 60 * 1000 <=? timestamp entry
                | AllDates => true
                end).
  assert (forall (f g : ParkingEntry -> bool) l,
             filter g (filter f l) = filter (fun x => (f x && g x)%bool) l)
    as fuse.
  { intros f g l. induction l as [|x l IH]; [reflexivity|]. cbn.
    destruct (f x); cbn; [destruct (g x)|]; rewrite IH; reflexivity. }
  assert (forall l : list ParkingEntry, filter (fun _ => true) l = l) as all.
  { intros l. induction l as [|x l IH]; [reflexivity|]. cbn. rewrite IH.
    reflexivity. }
  exists (fun x => ((p1 x && p2 x) && p3 x)%bool). split.
  - unfold filteredEntries. cbv zeta.
    rewrite <- !fuse. unfold p1, p2, p3.
    destruct (truthy searchTerm), filterType, dateFilter;
      cbn [isAllDates negb]; rewrite ?all; reflexivity.
  - intros e. rewrite !andb_true_iff.
    rewrite <- search_filter_iff, <- (date_filter_iff dateFilter e).
    unfold p1, p2, p3.
    destruct (truthy searchTerm), filterType as [|t], dateFilter;
      cbn [isAllDates negb direction_is];
      try (destruct (entry_type e), t; cbn);
      intuition congruence.
Qed.

End DashboardFilter.

(** ** Dashboard: CSV export *)

Section DashboardExport.
Import JSString JSDate Spec Dashboard.

Lemma join_cons sep x rest :
  join sep (x :: rest)
  = x ++ String.concat "" (map (fun y => sep ++ y) rest).
Proof.
  revert x. induction rest as [|y rest IH]; intros x.
  - cbn. rewrite append_empty_r. reflexivity.
  - change (join sep (x :: y :: rest)) with (x ++ sep ++ join sep (y :: rest)).
    rewrite IH. cbn [map String.concat].
    destruct (map (fun y0 => sep ++ y0) rest) as [|z zs] eqn:E.
    + cbn. rewrite !append_empty_r. reflexivity.
    + cbn [append]. rewrite !append_assoc. reflexivity.
Qed.

Lemma chars_app a b : chars (a ++ b) = (chars a ++ chars b)%list.
Proof.
  unfold chars. induction a as [|c a IH]; cbn; [reflexivity|].
  rewrite IH. reflexivity.
Qed.

Lemma lf_free_app a b : lf_free (a ++ b) = (lf_free a && lf_free b)%bool.
Proof. unfold lf_free. rewrite chars_app. apply forallb_app. Qed.

Lemma lines_nonempty s : lines s <> [].
Proof.
  induction s as [|c s IH]; cbn; [discriminate|].
  destruct (is_LF c); [discriminate|]. destruct (lines s); discriminate.
Qed.

Lemma lines_app a b :
  lf_free a = true ->
  lines (a ++ b) = (a ++ hd "" (lines b)) :: tl (lines b).
Proof.
  induction a as [|c a IH]; intros H.
  - cbn. pose proof (lines_nonempty b). destruct (lines b); [congruence|].
    reflexivity.
  - unfold lf_free in H. cbn in H. apply andb_true_iff in H as [Hc Ha].
    apply negb_true_iff in Hc. cbn [append lines]. rewrite Hc.
    rewrite IH by exact Ha. reflexivity.
Qed.

Lemma lines_LF a b :
  lf_free a = true -> lines (a ++ LF ++ b) = a :: lines b.
Proof.
  intros H. rewrite lines_app by exact H. cbn.
  rewrite append_empty_r. reflexivity.
Qed.

Lemma lines_one a : lf_free a = true -> lines a = [a].
Proof.
  intros H. rewrite <- (append_empty_r a) at 1. rewrite lines_app by exact H.
  cbn. rewrite append_empty_r. reflexivity.
Qed.

Lemma digit_not_LF c : is_digit c = true -> is_LF c = false.
Proof. destruct c as [[] [] [] [] [] [] [] []]; vm_compute; congruence. Qed.

Lemma lf_free_digits w n : lf_free (digits w n) = true.
Proof.
  induction w as [|w IH]; [reflexivity|].
  change (digits (S w) n)
    with (String (digit_char ((n / 10 ^ Z.of_nat w) mod 10)) "" ++ digits w n).
  rewrite lf_free_app, IH, andb_true_r.
  unfold lf_free. cbn [chars list_ascii_of_string forallb].
  rewrite andb_true_r.
  apply negb_true_iff, digit_not_LF.
  pose proof (Z.mod_pos_bound (n / 10 ^ Z.of_nat w) 10 ltac:(lia)).
  apply digit_char_val. lia.
Qed.

Lemma lf_free_toISOString t : lf_free (toISOString t) = true.
Proof.
  unfold toISOString, year_string.
  destruct ((0 <=? YearFromTime t) && (YearFromTime t <=? 9999))%bool;
    [|destruct (YearFromTime t <? 0)];
    repeat (rewrite lf_free_app; apply andb_true_iff; split);
    try apply lf_free_digits; reflexivity.
Qed.

Lemma lf_free_csv_line e :
  lf_free (plate_number e) = true -> lf_free (csv_line e) = true.
Proof.
  intros H. unfold csv_line.
  repeat (rewrite lf_free_app; apply andb_true_iff; split);
    try exact H; try apply lf_free_toISOString; try reflexivity.
  destruct (entry_type e); reflexivity.
Qed.

Lemma lines_rows header rows :
  lf_free header = true ->
  Forall (fun r => lf_free r = true) rows ->
  lines (header ++ String.concat "" (map (fun r => LF ++ r) rows))
  = header :: rows.
Proof.
  intros Hh Hrows. revert header Hh.
  induction Hrows as [|r rows Hr _ IH]; intros header Hh.
  - cbn. rewrite append_empty_r. apply lines_one. exact Hh.
  - replace (String.concat "" (map (fun r0 => LF ++ r0) (r :: rows)))
      with (LF ++ r ++ String.concat "" (map (fun r0 => LF ++ r0) rows)).
    + rewrite lines_LF by exact Hh. rewrite IH by exact Hr. reflexivity.
    + cbn [map String.concat].
      destruct (map (fun r0 => LF ++ r0) rows);
        cbn; rewrite ?append_empty_r; reflexivity.
Qed.

(** C8.  The exported text is the header line followed, for each filtered
    entry in order, by a line feed and the line "plate,direction,ISO-8601
    timestamp"; with no entry it is the header alone.  When no plate holds
    a line feed, the lines of the text are the header and one line per
    entry. *)
Theorem csvContent_shape (filtered : list ParkingEntry) :
  csvContent filtered
  = csv_header ++ String.concat "" (map (fun e => LF ++ csv_line e) filtered)
  /\ csvContent [] = csv_header
  /\ (Forall (fun e => lf_free (plate_number e) = true) filtered ->
      lines (csvContent filtered) = csv_header :: map csv_line filtered).
Proof.
  assert (csvContent filtered
          = csv_header
            ++ String.concat "" (map (fun e => LF ++ csv_line e) filtered)) as E.
  { unfold csvContent. rewrite join_cons, map_map. reflexivity. }
  split; [exact E|]. split; [reflexivity|].
  intros H. rewrite E, <- (map_map csv_line (fun r => LF ++ r)).
  apply lines_rows; [reflexivity|].
  apply Forall_forall. intros r Hr.
  apply in_map_iff in Hr as (e & <- & He).
  rewrite Forall_forall in H. apply lf_free_csv_line, H, He.
Qed.

Lemma csvContent_shape_witness :
  let filtered :=
    [mkEntry "k3j2h1g9f" "A8C123" 1718020805123 Entry;
     mkEntry "0a1b2c3d4" "XY21" 1718020000000 Exit] in
  lines (csvContent filtered)
  = ["Plate Number,Entry Type,Timestamp";
     "A8C123,Entry,2024-06-10T12:00:05.123Z";
     "XY21,Exit,2024-06-10T11:46:40.000Z"].
Proof.
  apply (proj2 (proj2 (csvContent_shape
           [mkEntry "k3j2h1g9f" "A8C123" 1718020805123 Entry;
            mkEntry "0a1b2c3d4" "XY21" 1718020000000 Exit]))).
  repeat constructor.
Defined.

End DashboardExport.

(** ** Duplicate guard, local-storage revision *)

Section DuplicateGuard.
Import Spec LocalIndex.

Lemma find_some_iff {A : Type} (f : A -> bool) (l : list A) :
  (exists x, find f l = Some x) <-> exists x, In x l /\ f x = true.
Proof.
  split.
  - intros [x H]. exists x. apply find_some in H. exact H.
  - intros (x & Hin & Hx). destruct (find f l) as [y|] eqn:E.
    + exists y. reflexivity.
    + pose proof (find_none _ _ E x Hin). congruence.
Qed.

Lemma duplicate_test_iff now plateNumber entryType (e : ParkingEntry) :
  ((plate_number e =? plateNumber)%string
   && EntryType_eqb (entry_type e) entryType
   && (now - 5 * 60 * 1000 <? timestamp e))%bool = true
  <-> plate_number e = plateNumber /\ entry_type e = entryType
      /\ now - fiveMinutes < timestamp e.
Proof.
  rewrite !andb_true_iff, String.eqb_eq, Z.ltb_lt. unfold fiveMinutes.
  destruct (entry_type e), entryType; cbn; intuition congruence.
Qed.

Lemma toast_lists_differ (a b : Toast) (l : list Toast) :
  title a <> title b -> a :: l <> b :: l.
Proof. intros H E. injection E as E. apply H. rewrite E. reflexivity. Qed.

(** C1, as the code has it.  A request is answered with the duplicate
    notice exactly when some entry of the list has the same plate string,
    the same direction and a timestamp later than five minutes before now
    (there is no upper bound: an entry stamped after now counts too).  A
    rejected request leaves the list as it is, an accepted one puts the new
    entry at its head.  With the one entry (ABC123, Entry, now - 2 min), a
    request (ABC123, Entry) is rejected and a request (ABC123, Exit) is
    accepted. *)
Theorem addParkingEntry_duplicate_guard (now : Z) (newId plateNumber : string)
    (entryType : EntryType) (st : State) :
  let st' := addParkingEntry now newId plateNumber entryType st in
  (signals_duplicate st st' <->
   exists e, In e (parkingEntries st)
             /\ plate_number e = plateNumber /\ entry_type e = entryType
             /\ now - fiveMinutes < timestamp e)
  /\ (signals_duplicate st st' -> parkingEntries st' = parkingEntries st)
  /\ (~ signals_duplicate st st' ->
      parkingEntries st'
      = mkEntry newId plateNumber now entryType :: parkingEntries st)
  /\ (forall id0,
        let st0 := mkState [mkEntry id0 "ABC123" (now - 2 * 60 * 1000) Entry] [] in
        signals_duplicate st0 (addParkingEntry now newId "ABC123" Entry st0)
        /\ parkingEntries (addParkingEntry now newId "ABC123" Entry st0)
           = parkingEntries st0
        /\ parkingEntries (addParkingEntry now newId "ABC123" Exit st0)
           = mkEntry newId "ABC123" now Exit :: parkingEntries st0).
Proof.
  cbv zeta. unfold addParkingEntry, signals_duplicate.
  set (f := fun entry : ParkingEntry =>
              ((plate_number entry =? plateNumber)%string
               && EntryType_eqb (entry_type entry) entryType
               && (now - 5 * 60 * 1000 <? timestamp entry))%bool).
  assert ((exists x, find f (parkingEntries st) = Some x) <->
          exists e, In e (parkingEntries st)
                    /\ plate_number e = plateNumber /\ entry_type e = entryType
                    /\ now - fiveMinutes < timestamp e) as F.
  { rewrite find_some_iff. split; intros (e & Hin & He); exists e;
      (split; [exact Hin|]); apply duplicate_test_iff; exact He. }
  split; [|split; [|split]].
  - split.
    + intros H. apply F. destruct (find f (parkingEntries st)) as [x|].
      * exists x. reflexivity.
      * cbn in H. apply toast_lists_differ in H; [contradiction | discriminate].
    + intros H. apply F in H as [x ->]. reflexivity.
  - destruct (find f (parkingEntries st)); [reflexivity|].
    cbn. intros H. apply toast_lists_differ in H; [contradiction | discriminate].
  - destruct (find f (parkingEntries st)); [|reflexivity].
    cbn. intros H. exfalso. apply H. reflexivity.
  - intros id0.
    cbn [find parkingEntries plate_number entry_type timestamp toasts].
    replace (now - 5 * 60 * 1000 <? now - 2 * 60 * 1000) with true
      by (symmetry; apply Z.ltb_lt; lia).
    cbn. split; [reflexivity|]. split; reflexivity.
Qed.

(** C1, as the specification has it, fails: an entry stamped one minute
    after now is outside the window that ends now, and the request is
    rejected all the same. *)
Lemma duplicate_guard_future_entry :
  let now := 1718020800000 in
  let st := mkState [mkEntry "k3j2h1g9f" "ABC123" (now + 60000) Entry] [] in
  ~ (signals_duplicate st (addParkingEntry now "0a1b2c3d4" "ABC123" Entry st)
     <-> exists e, In e (parkingEntries st)
                   /\ plate_number e = "ABC123" /\ entry_type e = Entry
                   /\ within_trailing_window now (timestamp e)).
Proof.
  cbv zeta. intros [H _].
  destruct H as (e & Hin & _ & _ & Hw).
  - reflexivity.
  - cbn in Hin. destruct Hin as [<- | []].
    unfold within_trailing_window in Hw. cbn in Hw. lia.
Qed.

End DuplicateGuard.

(** ** The remote-backed revision *)

Section RemoteStore.
Import JSDate Exn ParkingService RemoteIndex Spec.

(** [insertEntry] never throws, and gives no entry when the request
    failed or returned no row. *)
Lemma insertEntry_failure supabase now plateNumber entryType :
  let response :=
    insert_select_single supabase plateNumber entryType (toISOString now) in
  request_failed response \/ response = Resolved None None ->
  insertEntry supabase now plateNumber entryType = Return None.
Proof.
  cbv zeta. unfold insertEntry. intros H.
  destruct (insert_select_single supabase plateNumber entryType (toISOString now))
    as [data [err|] | reason]; cbn; try reflexivity.
  destruct H as [[] | H]. injection H as ->. reflexivity.
Qed.

Lemma insertEntry_returns supabase now plateNumber entryType :
  exists r, insertEntry supabase now plateNumber entryType = Return r.
Proof.
  unfold insertEntry.
  destruct (insert_select_single supabase plateNumber entryType (toISOString now))
    as [[d|] [err|] | reason]; cbn; eexists; reflexivity.
Qed.

(** Without a created entry the list stays as it is, whatever the
    duplicate check did. *)
Lemma addParkingEntry_without_entry service plateNumber entryType st :
  svc_insertEntry service plateNumber entryType = Return None
  \/ (exists error, svc_insertEntry service plateNumber entryType = Throw error) ->
  exists notice,
    addParkingEntry service plateNumber entryType st
    = Return (mkState (parkingEntries st) (notice :: toasts st))
    /\ (svc_checkDuplicateEntry service plateNumber entryType = Return false ->
        notice = mkToast "Failed to Save Entry" true).
Proof.
  intros H. unfold addParkingEntry.
  destruct (svc_checkDuplicateEntry service plateNumber entryType)
    as [[|] | e] eqn:Echeck; cbn.
  - eexists. split; [reflexivity | discriminate].
  - destruct H as [-> | [error ->]]; cbn;
      eexists; (split; [reflexivity|]); reflexivity.
  - eexists. split; [reflexivity | discriminate].
Qed.

(** C5.  When [insertEntry] gives no created row, or throws,
    [addParkingEntry] completes without an exception and leaves the entry
    list as it was; when the duplicate check had let the request pass, the
    notice shown is the destructive "Failed to Save Entry". *)
Theorem addParkingEntry_insert_failure (service : Service)
    (plateNumber : string) (entryType : EntryType) (st : State) :
  svc_insertEntry service plateNumber entryType = Return None
  \/ (exists error, svc_insertEntry service plateNumber entryType = Throw error) ->
  exists st',
    addParkingEntry service plateNumber entryType st = Return st'
    /\ parkingEntries st' = parkingEntries st
    /\ (svc_checkDuplicateEntry service plateNumber entryType = Return false ->
        toasts st' = mkToast "Failed to Save Entry" true :: toasts st).
Proof.
  intros H.
  destruct (addParkingEntry_without_entry service plateNumber entryType st H)
    as (notice & E & Hnotice).
  eexists. split; [exact E|]. split; [reflexivity|].
  intros Hcheck. cbn [toasts]. rewrite (Hnotice Hcheck). reflexivity.
Qed.

Lemma addParkingEntry_insert_failure_witness :
  let st := mkState [mkEntry "7f1c" "A8C123" 1718020000000 Entry] [] in
  exists st',
    addParkingEntry (parkingService unreachable_store 1718020800000)
      "XY21" Exit st = Return st'
    /\ parkingEntries st' = parkingEntries st
    /\ (svc_checkDuplicateEntry (parkingService unreachable_store 1718020800000)
          "XY21" Exit = Return false ->
        toasts st' = mkToast "Failed to Save Entry" true :: toasts st).
Proof.
  apply (addParkingEntry_insert_failure
           (parkingService unreachable_store 1718020800000) "XY21" Exit
           (mkState [mkEntry "7f1c" "A8C123" 1718020000000 Entry] [])).
  left. reflexivity.
Defined.

(** With the service of [parkingService.ts]: a failed insert request, or
    one that returns no row, leaves the list unchanged. *)
Lemma addParkingEntry_store_failure supabase now plateNumber entryType st :
  let response :=
    insert_select_single supabase plateNumber entryType (toISOString now) in
  request_failed response \/ response = Resolved None None ->
  exists st',
    addParkingEntry (parkingService supabase now) plateNumber entryType st
    = Return st'
    /\ parkingEntries st' = parkingEntries st.
Proof.
  cbv zeta. intros H.
  destruct (addParkingEntry_without_entry (parkingService supabase now)
              plateNumber entryType st) as (notice & E & _).
  - left. cbn [svc_insertEntry parkingService].
    apply insertEntry_failure. exact H.
  - eexists. split; [exact E | reflexivity].
Qed.

(** C10.  When the select of the duplicate check fails (the request
    throws or answers with an error), [checkDuplicateEntry] returns false,
    and [addParkingEntry] goes on to the insert: the outcome is that of the
    insert alone. *)
Theorem checkDuplicateEntry_fail_open (supabase : Supabase) (now : Z)
    (plateNumber : string) (entryType : EntryType) (st : State) :
  request_failed
    (select_recent_limit1 supabase plateNumber entryType
       (toISOString (now - 5 * 60 * 1000))) ->
  checkDuplicateEntry supabase now plateNumber entryType = Return false
  /\ addParkingEntry (parkingService supabase now) plateNumber entryType st
     = match insertEntry supabase now plateNumber entryType with
       | Return (Some newEntry) =>
           Return (mkState (newEntry :: parkingEntries st)
                     (mkToast "License Plate Scanned" false :: toasts st))
       | _ =>
           Return (mkState (parkingEntries st)
                     (mkToast "Failed to Save Entry" true :: toasts st))
       end.
Proof.
  intros H.
  assert (checkDuplicateEntry supabase now plateNumber entryType = Return false)
    as E.
  { unfold checkDuplicateEntry. cbv zeta.
    destruct (select_recent_limit1 supabase plateNumber entryType
                (toISOString (now - 5 * 60 * 1000)))
      as [data [err|] | reason]; cbn; try reflexivity.
    destruct H. }
  split; [exact E|].
  unfold addParkingEntry. cbn [svc_checkDuplicateEntry svc_insertEntry parkingService].
  rewrite E. cbn [bind].
  destruct (insertEntry supabase now plateNumber entryType) as [[e|] | err];
    reflexivity.
Qed.

Lemma checkDuplicateEntry_fail_open_witness :
  let st := mkState [mkEntry "7f1c" "A8C123" 1718020700000 Entry] [] in
  checkDuplicateEntry (select_failing_store "9e2d") 1718020800000 "A8C123" Entry
  = Return false
  /\ addParkingEntry (parkingService (select_failing_store "9e2d") 1718020800000)
       "A8C123" Entry st
     = Return (mkState
                 [mkEntry "9e2d" "A8C123" 1718020800000 Entry;
                  mkEntry "7f1c" "A8C123" 1718020700000 Entry]
                 [mkToast "License Plate Scanned" false]).
Proof.
  apply (checkDuplicateEntry_fail_open (select_failing_store "9e2d")
           1718020800000 "A8C123" Entry
           (mkState [mkEntry "7f1c" "A8C123" 1718020700000 Entry] [])).
  exact I.
Defined.

(** A request that the duplicate check reports as a duplicate creates no
    entry and sends no insert: the result does not depend on the insert. *)
Lemma addParkingEntry_remote_duplicate service plateNumber entryType st :
  svc_checkDuplicateEntry service plateNumber entryType = Return true ->
  addParkingEntry service plateNumber entryType st
  = Return (mkState (parkingEntries st)
              (mkToast "Duplicate Entry Detected" true :: toasts st)).
Proof. intros H. unfold addParkingEntry. rewrite H. reflexivity. Qed.

(** For comparison, against a store that answers from its table the remote
    duplicate check is true exactly when a row has the plate, the direction
    and a timestamp not earlier than five minutes before now. *)
Lemma checkDuplicateEntry_table rows newId now plateNumber entryType :
  in_range (now - fiveMinutes) = true ->
  checkDuplicateEntry (table_store rows newId) now plateNumber entryType
  = Return true
  <-> exists r, In r rows
                /\ row_plate_number r = plateNumber
                /\ row_entry_type r = entryType
                /\ now - fiveMinutes <= row_timestamp r.
Proof.
  intros Hr. unfold checkDuplicateEntry, table_store. cbv zeta.
  cbn [select_recent_limit1]. change (5 * 60 * 1000) with fiveMinutes.
  rewrite parse_toISOString by exact Hr. cbn [await bind try_catch].
  set (f := fun r : DatabaseParkingEntry =>
              ((row_plate_number r =? plateNumber)%string
               && EntryType_eqb (row_entry_type r) entryType
               && (now - fiveMinutes <=? row_timestamp r))%bool).
  assert (forall r, f r = true <->
            row_plate_number r = plateNumber /\ row_entry_type r = entryType
            /\ now - fiveMinutes <= row_timestamp r) as Hf.
  { intros r. unfold f. rewrite !andb_true_iff, String.eqb_eq, Z.leb_le.
    destruct (row_entry_type r), entryType; cbn; intuition congruence. }
  destruct (filter f rows) as [|r0 rest] eqn:E.
  - cbn. split; [discriminate|]. intros (r & Hin & Hr').
    assert (In r (filter f rows)) as Hin'
        by (apply filter_In; split; [exact Hin | apply Hf; exact Hr']).
    rewrite E in Hin'. destruct Hin'.
  - cbn. split; [|reflexivity]. intros _. exists r0.
    assert (In r0 (filter f rows)) as Hin by (rewrite E; left; reflexivity).
    apply filter_In in Hin as [Hin Hr0]. split; [exact Hin|].
    apply Hf. exact Hr0.
Qed.

End RemoteStore.

(** ** Image preprocessor *)

Section ImageFacts.
Import stdpp.list.
Import JSNumber ImagePreprocessor Spec ImageSpec.
Local Open Scope Z_scope.

Example Math_round_half : Math_round 2.5 = 3%float.
Proof. reflexivity. Qed.

Example Math_round_minus_half : Math_round (-2.5) = (-2)%float.
Proof. reflexivity. Qed.

Example Math_round_below_half : Math_round 0.49999999999999994 = 0%float.
Proof. reflexivity. Qed.

Example Math_round_not_a_number :
  Math_round nan = nan /\ Math_round infinity = infinity
  /\ Math_round (-0.2) = (-0)%float /\ Math_round 1e300 = 1e300%float.
Proof. repeat split; reflexivity. Qed.

Example ToUint8Clamp_ties_to_even :
  ToUint8Clamp 1.5 = 2 /\ ToUint8Clamp 2.5 = 2 /\ ToUint8Clamp 300 = 255
  /\ ToUint8Clamp (-3) = 0 /\ ToUint8Clamp nan = 0.
Proof. repeat split; reflexivity. Qed.

(** A frame whose length is not a multiple of four: the bytes of the last,
    incomplete pixel become 0. *)
Example loop_incomplete_pixel :
  data (preprocessImage (mkImageData 1 1 [77; 255; 200; 200; 200; 7]))
  = [255; 255; 255; 200; 0; 0].
Proof. vm_compute. reflexivity. Qed.

(** The clamps after the threshold change nothing. *)
Lemma stored_binarized (r g b : Z) :
  stored (of_byte r) (of_byte g) (of_byte b) = binarized r g b.
Proof.
  unfold stored, binarized, exceeds_threshold, rounded_luminance.
  destruct (128 <? _)%float; reflexivity.
Qed.

Lemma stored_0_or_255 (r g b : float) : stored r g b = 0 \/ stored r g b = 255.
Proof. unfold stored. destruct (128 <? _)%float; [right | left]; reflexivity. Qed.

Lemma length_body (data : list Z) (i : nat) :
  List.length (body data i) = List.length data.
Proof. unfold body, set. cbv zeta. rewrite !length_insert. reflexivity. Qed.

(** One iteration: the bytes before the pixel stay, the pixel is
    processed. *)
Lemma body_lookup (data : list Z) (j i : nat) :
  body data (4 * j) !! i
  = if (i <? 4 * j)%nat then data !! i
    else if (i <? 4 * j + 4)%nat then processed data i
    else data !! i.
Proof.
  unfold body, set. cbv zeta.
  set (v := ToUint8Clamp _).
  assert (v = stored (get data (4 * j)) (get data (4 * j + 1))
                (get data (4 * j + 2))) as Hv by reflexivity.
  clearbody v.
  destruct (i <? 4 * j)%nat eqn:E1.
  - apply Nat.ltb_lt in E1.
    rewrite !list_lookup_insert_ne by lia. reflexivity.
  - apply Nat.ltb_ge in E1. destruct (i <? 4 * j + 4)%nat eqn:E2.
    + apply Nat.ltb_lt in E2. unfold processed.
      pose proof (Nat.div_mod_eq i 4) as Hdm.
      pose proof (Nat.mod_upper_bound i 4 ltac:(lia)) as Hub.
      assert (i / 4 = j)%nat as Hq by lia.
      assert (i mod 4 = i - 4 * j)%nat as Hm by lia.
      clear Hdm Hub.
      rewrite Hq, Hm.
      destruct (data !! i) as [a|] eqn:Ei.
      * pose proof (lookup_lt_Some _ _ _ Ei) as Hlt.
        assert (i = 4 * j \/ i = 4 * j + 1 \/ i = 4 * j + 2 \/ i = 4 * j + 3)%nat
          as [-> | [-> | [-> | ->]]] by lia.
        -- rewrite !list_lookup_insert_ne by lia.
           rewrite list_lookup_insert_eq by lia.
           replace (4 * j - 4 * j =? 3)%nat with false
             by (symmetry; apply Nat.eqb_neq; lia).
           rewrite Hv. reflexivity.
        -- rewrite list_lookup_insert_ne by lia.
           rewrite list_lookup_insert_eq by (rewrite length_insert; lia).
           replace (4 * j + 1 - 4 * j =? 3)%nat with false
             by (symmetry; apply Nat.eqb_neq; lia).
           rewrite Hv. reflexivity.
        -- rewrite list_lookup_insert_eq by (rewrite !length_insert; lia).
           replace (4 * j + 2 - 4 * j =? 3)%nat with false
             by (symmetry; apply Nat.eqb_neq; lia).
           rewrite Hv. reflexivity.
        -- rewrite !list_lookup_insert_ne by lia.
           replace (4 * j + 3 - 4 * j =? 3)%nat with true
             by (symmetry; apply Nat.eqb_eq; lia).
           exact Ei.
      * apply lookup_ge_None in Ei. apply lookup_ge_None.
        rewrite !length_insert. exact Ei.
    + apply Nat.ltb_ge in E2.
      rewrite !list_lookup_insert_ne by lia. reflexivity.
Qed.

Lemma body_lookup_after (data : list Z) (j k : nat) :
  (4 * j + 4 <= k)%nat -> body data (4 * j) !! k = data !! k.
Proof.
  intros H. rewrite body_lookup.
  replace (k <? 4 * j)%nat with false by (symmetry; apply Nat.ltb_ge; lia).
  replace (k <? 4 * j + 4)%nat with false by (symmetry; apply Nat.ltb_ge; lia).
  reflexivity.
Qed.

(** Processing a pixel does not change what the later ones become. *)
Lemma processed_body (data : list Z) (j i : nat) :
  (4 * j + 4 <= i)%nat -> processed (body data (4 * j)) i = processed data i.
Proof.
  intros H. unfold processed, get.
  pose proof (Nat.div_mod_eq i 4) as Hdm.
  pose proof (Nat.mod_upper_bound i 4 ltac:(lia)) as Hub.
  rewrite !body_lookup_after by lia. reflexivity.
Qed.

(** The loop from pixel [j] on: the bytes before stay, the others are
    processed; the bound on the iterations is not reached. *)
Lemma loop_lookup (fuel : nat) : forall (j : nat) (data : list Z),
  (List.length data <= 4 * j + 4 * fuel)%nat ->
  forall i, loop fuel (4 * j) data !! i
            = if (i <? 4 * j)%nat then data !! i else processed data i.
Proof.
  assert (forall (j : nat) (data : list Z),
             (List.length data <= 4 * j)%nat ->
             forall i, data !! i
                       = if (i <? 4 * j)%nat then data !! i else processed data i)
    as done_.
  { intros j data H i. destruct (i <? 4 * j)%nat eqn:E; [reflexivity|].
    apply Nat.ltb_ge in E. unfold processed.
    rewrite (lookup_ge_None_2 data i) by lia. reflexivity. }
  induction fuel as [|fuel IH]; intros j data Hlen i.
  - cbn [loop]. apply done_. lia.
  - cbn [loop]. destruct (4 * j <? List.length data)%nat eqn:E.
    + apply Nat.ltb_lt in E.
      replace (4 * j + 4)%nat with (4 * (j + 1))%nat by lia.
      rewrite IH by (rewrite length_body; lia).
      replace (4 * (j + 1))%nat with (4 * j + 4)%nat by lia.
      rewrite body_lookup.
      destruct (i <? 4 * j + 4)%nat eqn:E4.
      * reflexivity.
      * apply Nat.ltb_ge in E4.
        replace (i <? 4 * j)%nat with false by (symmetry; apply Nat.ltb_ge; lia).
        apply processed_body. exact E4.
    + apply Nat.ltb_ge in E. apply done_. exact E.
Qed.

Lemma length_loop (fuel : nat) : forall (i : nat) (data : list Z),
  List.length (loop fuel i data) = List.length data.
Proof.
  induction fuel as [|fuel IH]; intros i data; cbn [loop]; [reflexivity|].
  destruct (i <? List.length data)%nat; [|reflexivity].
  rewrite IH. apply length_body.
Qed.

(** More iterations than the loop needs change nothing. *)
Lemma loop_fuel (fuel fuel' j : nat) (data : list Z) :
  (List.length data <= 4 * j + 4 * fuel)%nat ->
  (List.length data <= 4 * j + 4 * fuel')%nat ->
  loop fuel (4 * j) data = loop fuel' (4 * j) data.
Proof.
  intros H H'. apply list_eq. intros i.
  rewrite !loop_lookup by assumption. reflexivity.
Qed.

(** Every byte of the output is the processed byte of the input. *)
Lemma preprocessImage_lookup (img : ImageData) (i : nat) :
  data (preprocessImage img) !! i = processed (data img) i.
Proof.
  unfold preprocessImage. cbn [data].
  pose proof (loop_lookup (List.length (data img)) 0 (data img) ltac:(lia) i) as H.
  cbn [Nat.mul] in H. exact H.
Qed.

(** C9.  The output frame has the dimensions of the input frame; for each
    pixel the alpha byte is the one of the input and the red, green and
    blue bytes are one and the same value, 255 when the rounded luminance
    of the input pixel times 2.0 plus 20 exceeds 128 and 0 otherwise. *)
Theorem preprocessImage_binarizes (img : ImageData) :
  List.length (data img) = (4 * (width img * height img))%nat ->
  let out := preprocessImage img in
  width out = width img
  /\ height out = height img
  /\ List.length (data out) = List.length (data img)
  /\ forall k : nat, (k < width img * height img)%nat ->
       exists r g b a : Z,
         data img !! (4 * k)%nat = Some r
         /\ data img !! (4 * k + 1)%nat = Some g
         /\ data img !! (4 * k + 2)%nat = Some b
         /\ data img !! (4 * k + 3)%nat = Some a
         /\ data out !! (4 * k)%nat = Some (binarized r g b)
         /\ data out !! (4 * k + 1)%nat = Some (binarized r g b)
         /\ data out !! (4 * k + 2)%nat = Some (binarized r g b)
         /\ data out !! (4 * k + 3)%nat = Some a
         /\ (binarized r g b = 255 <-> exceeds_threshold r g b = true)
         /\ (binarized r g b = 0 <-> exceeds_threshold r g b = false).
Proof.
  intros Hlen. cbv zeta.
  split; [reflexivity|]. split; [reflexivity|].
  split; [apply length_loop|].
  intros k Hk.
  destruct (lookup_lt_is_Some_2 (data img) (4 * k)) as [r Hr]; [lia|].
  destruct (lookup_lt_is_Some_2 (data img) (4 * k + 1)) as [g Hg]; [lia|].
  destruct (lookup_lt_is_Some_2 (data img) (4 * k + 2)) as [b Hb]; [lia|].
  destruct (lookup_lt_is_Some_2 (data img) (4 * k + 3)) as [a Ha]; [lia|].
  exists r, g, b, a.
  rewrite !preprocessImage_lookup. unfold processed.
  rewrite Hr, Hg, Hb, Ha.
  assert (forall n c : nat, (n = 4 * k + c)%nat -> (c < 4)%nat ->
            (n / 4 = k /\ n mod 4 = c)%nat) as Hdm.
  { intros n c -> Hc.
    pose proof (Nat.div_mod_eq (4 * k + c) 4).
    pose proof (Nat.mod_upper_bound (4 * k + c) 4 ltac:(lia)). lia. }
  destruct (Hdm (4 * k)%nat 0%nat ltac:(lia) ltac:(lia)) as [-> ->].
  destruct (Hdm (4 * k + 1)%nat 1%nat ltac:(lia) ltac:(lia)) as [-> ->].
  destruct (Hdm (4 * k + 2)%nat 2%nat ltac:(lia) ltac:(lia)) as [-> ->].
  destruct (Hdm (4 * k + 3)%nat 3%nat ltac:(lia) ltac:(lia)) as [-> ->].
  cbn [Nat.eqb]. unfold get. rewrite Hr, Hg, Hb.
  rewrite stored_binarized.
  repeat (split; [reflexivity|]).
  unfold binarized. destruct (exceeds_threshold r g b);
    split; split; intros; (reflexivity || discriminate).
Qed.

Lemma preprocessImage_binarizes_witness :
  let img := mkImageData 2 1 [6; 76; 71; 255; 200; 180; 90; 7] in
  data (preprocessImage img) = [0; 0; 0; 255; 255; 255; 255; 7]
  /\ width (preprocessImage img) = 2%nat
  /\ List.length (data (preprocessImage img)) = 8%nat.
Proof.
  pose proof (preprocessImage_binarizes
                (mkImageData 2 1 [6; 76; 71; 255; 200; 180; 90; 7])
                eq_refl) as (Hw & _ & Hl & _).
  split; [vm_compute; reflexivity|]. split; [exact Hw | exact Hl].
Defined.

(** The luminance of every pixel of bytes, by enumeration. *)
Lemma all_pixels_checked :
  (let bytes := byte_values in
   forallb (fun r => forallb (fun g => forallb (pixel_ok r g) bytes) bytes)
     bytes) = true.
Proof. vm_cast_no_check (eq_refl true). Qed.

Lemma In_byte_values (b : Z) : 0 <= b <= 255 -> In (of_byte b) byte_values.
Proof.
  intros H. unfold byte_values.
  rewrite <- (Z2Nat.id b) at 1 by lia.
  apply (in_map (fun n => of_byte (Z.of_nat n))).
  apply in_seq. lia.
Qed.

Lemma pixel_ok_bytes (r g b : Z) :
  0 <= r <= 255 -> 0 <= g <= 255 -> 0 <= b <= 255 ->
  pixel_ok (of_byte r) (of_byte g) (of_byte b) = true.
Proof.
  intros Hr Hg Hb. pose proof all_pixels_checked as H. cbv zeta in H.
  rewrite forallb_forall in H.
  specialize (H _ (In_byte_values r Hr)). rewrite forallb_forall in H.
  specialize (H _ (In_byte_values g Hg)). rewrite forallb_forall in H.
  exact (H _ (In_byte_values b Hb)).
Qed.

(** On bytes the threshold is exceeded exactly when the rounded luminance
    is 55 or more. *)
Lemma binarized_bytes (r g b : Z) :
  0 <= r <= 255 -> 0 <= g <= 255 -> 0 <= b <= 255 ->
  binarized r g b = if (55 <=? rounded_luminance r g b)%float then 255 else 0.
Proof.
  intros Hr Hg Hb. pose proof (pixel_ok_bytes r g b Hr Hg Hb) as H.
  unfold pixel_ok in H. cbv zeta in H.
  apply andb_true_iff in H as [_ H]. apply Bool.eqb_prop in H.
  unfold binarized, exceeds_threshold, rounded_luminance. rewrite H.
  reflexivity.
Qed.

(** A pixel whose luminance is 54.5 in exact arithmetic: the binary64 sum
    falls just below, is rounded to 54, and the pixel becomes black. *)
Lemma luminance_tie_pixel :
  299 * 6 + 587 * 76 + 114 * 71 = 54500
  /\ rounded_luminance 6 76 71 = 54%float
  /\ binarized 6 76 71 = 0.
Proof. split; [reflexivity|]. split; vm_compute; reflexivity. Qed.

End ImageFacts.

(** ** More on the plate normalizer *)

Section NormalizerMore.
Import JSString Spec More CameraScanner.

Lemma chain_chain c : chain (chain c) = chain c.
Proof. each_char c. Qed.

Lemma chain_not_replaced c : replaced_letter (chain c) = false.
Proof. each_char c. Qed.

Lemma keep_all P s :
  Forall (fun c => P c = true) (chars s) -> keep P s = s.
Proof.
  unfold chars. induction s as [|c s IH]; intros H; [reflexivity|].
  inversion H as [|? ? Hc Hs]; subst. cbn. rewrite Hc, IH by exact Hs.
  reflexivity.
Qed.

Lemma map_chars_id f s :
  Forall (fun c => f c = c) (chars s) -> map_chars f s = s.
Proof.
  unfold chars. induction s as [|c s IH]; intros H; [reflexivity|].
  inversion H as [|? ? Hc Hs]; subst. cbn. rewrite Hc, IH by exact Hs.
  reflexivity.
Qed.

Lemma plate_char_alnum c : plate_char c = true -> alnum c = true.
Proof. each_char c. Qed.

Lemma plate_char_upcase c : plate_char c = true -> upcase c = c.
Proof. each_char c. Qed.

(** A string of plate characters is its own stripped, upper-cased form. *)
Lemma stripped_upper_plate s :
  Forall (fun c => plate_char c = true) (chars s) -> stripped_upper s = s.
Proof.
  intros H. unfold stripped_upper, toUpperCase.
  rewrite keep_all.
  - apply map_chars_id. eapply Forall_impl; [|exact H].
    intros c Hc. apply plate_char_upcase. exact Hc.
  - eapply Forall_impl; [|exact H]. intros c Hc. apply plate_char_alnum.
    exact Hc.
Qed.

(** X1.  Normalizing a normalized plate changes nothing. *)
Theorem cleanPlateNumber_idempotent (text : string) :
  cleanPlateNumber (cleanPlateNumber text) = cleanPlateNumber text.
Proof.
  rewrite (cleanPlateNumber_unfold (cleanPlateNumber text)).
  rewrite stripped_upper_plate.
  - rewrite cleanPlateNumber_unfold, map_chars_compose.
    apply map_chars_ext. intros c _. apply chain_chain.
  - apply Forall_forall. apply cleanPlateNumber_plate_chars.
Qed.

(** X2.  A normalized plate holds none of the letters O, Q, I, L, S, Z, G,
    B, D, U: each of them has become a digit. *)
Theorem cleanPlateNumber_no_replaced_letter (text : string) :
  Forall (fun c => replaced_letter c = false) (chars (cleanPlateNumber text)).
Proof.
  rewrite cleanPlateNumber_unfold, chars_map_chars.
  apply Forall_forall. intros c Hc.
  apply in_map_iff in Hc as (d & <- & _). apply chain_not_replaced.
Qed.

Lemma length_keep P s : String.length (keep P s) = count P s.
Proof.
  unfold count, chars. induction s as [|c s IH]; [reflexivity|]. cbn.
  destruct (P c); cbn; rewrite IH; reflexivity.
Qed.

Lemma count_le P s : (count P s <= String.length s)%nat.
Proof.
  unfold count, chars. induction s as [|c s IH]; cbn; [lia|].
  destruct (P c); cbn; lia.
Qed.

Lemma length_stripped_upper text :
  String.length (stripped_upper text) = count alnum text.
Proof.
  unfold stripped_upper, toUpperCase. rewrite length_map_chars.
  apply length_keep.
Qed.

(** X3.  The normalized plate has one character for each letter or digit of
    the raw text, so it is never longer than the raw text. *)
Theorem cleanPlateNumber_length (text : string) :
  String.length (cleanPlateNumber text) = count alnum text
  /\ (String.length (cleanPlateNumber text) <= String.length text)%nat.
Proof.
  assert (String.length (cleanPlateNumber text) = count alnum text) as E.
  { rewrite cleanPlateNumber_unfold, length_map_chars.
    apply length_stripped_upper. }
  split; [exact E|]. rewrite E. apply count_le.
Qed.




Lemma plate_char_upper_or_digit c :
  plate_char c = true -> is_upper c = true \/ is_digit c = true.
Proof. unfold plate_char. intros H. apply orb_true_iff in H. exact H. Qed.

(** A normalized plate of 4 to 8 characters passes the validity test. *)
Lemma isValidPlateNumber_of_length text :
  (4 <= String.length (cleanPlateNumber text) <= 8)%nat ->
  isValidPlateNumber (cleanPlateNumber text) = true.
Proof.
  intros Hlen. pose proof (cleanPlateNumber_plate_chars text) as Hall.
  apply isValidPlateNumber_iff. split; [exact Hlen|].
  destruct (cleanPlateNumber text) as [|c s]; [cbn in Hlen; lia|].
  destruct (plate_char_upper_or_digit c (Hall c (or_introl eq_refl)));
    [left | right]; apply Exists_cons_hd; assumption.
Qed.

(** X5.  On a normalized plate the validity test is the length test alone:
    the letter-or-digit condition never rejects one. *)
Theorem isValidPlateNumber_cleaned (text : string) :
  isValidPlateNumber (cleanPlateNumber text)
  = ((4 <=? String.length (cleanPlateNumber text))%nat
     && (String.length (cleanPlateNumber text) <=? 8)%nat)%bool.
Proof.
  destruct ((4 <=? String.length (cleanPlateNumber text))%nat
            && (String.length (cleanPlateNumber text) <=? 8)%nat)%bool eqn:E.
  - apply andb_true_iff in E as [H4 H8]. apply Nat.leb_le in H4, H8.
    apply isValidPlateNumber_of_length. lia.
  - apply not_true_iff_false. intros Hv.
    apply isValidPlateNumber_iff in Hv as [Hlen _].
    apply not_true_iff_false in E. apply E.
    apply andb_true_iff. split; apply Nat.leb_le; lia.
Qed.

End NormalizerMore.

(** ** The scanner between captures *)

Section ScannerFlow.
Import JSString Spec More CameraScanner ScannerControls.

(** X6.  A confirmed plate is handed on once: after [confirmPlate], as
    after [resetCapture], confirming again records nothing; and neither a
    capture nor a confirmation changes the selected direction. *)
Theorem confirmPlate_once (text : string) (confidence : Q) (st : State) :
  fst (confirmPlate (snd (confirmPlate st))) = None
  /\ fst (confirmPlate (resetCapture st)) = None
  /\ snd (confirmPlate (resetCapture st)) = resetCapture st
  /\ selectedEntryType (snd (confirmPlate (capture text confidence st)))
     = selectedEntryType st.
Proof.
  unfold confirmPlate, resetCapture, capture.
  repeat split.
  - destruct (truthy (extractedText st)) eqn:E; cbn; [reflexivity|].
    rewrite E. reflexivity.
  - destruct (isValidPlateNumber (cleanPlateNumber text) && Q_gt confidence 30)%bool;
      cbn [extractedText selectedEntryType];
      destruct (truthy _); reflexivity.
Qed.

End ScannerFlow.

(** ** The revision before the final one *)

Section Revisions.
Import JSString Spec More.

Lemma earlier_then_added c : added_rules (earlier_chain c) = chain c.
Proof. each_char c. Qed.

Lemma Revision2_cleanPlateNumber_unfold text :
  Revision2.cleanPlateNumber text = map_chars earlier_chain (stripped_upper text).
Proof.
  unfold Revision2.cleanPlateNumber, stripped_upper.
  rewrite replace_g_empty.
  rewrite (keep_ext _ alnum) by apply re_not_alnum_matches.
  rewrite !replace_g_char, !map_chars_compose. reflexivity.
Qed.

(** X7.  The final normalizer is the earlier one followed by the four
    added rules Q->0, L->1, D->0, U->0, character by character; the two
    give plates of the same length. *)
Theorem cleanPlateNumber_extends_earlier (text : string) :
  CameraScanner.cleanPlateNumber text
  = map_chars added_rules (Revision2.cleanPlateNumber text)
  /\ String.length (CameraScanner.cleanPlateNumber text)
     = String.length (Revision2.cleanPlateNumber text).
Proof.
  rewrite cleanPlateNumber_unfold, Revision2_cleanPlateNumber_unfold.
  rewrite map_chars_compose, !length_map_chars. split; [|reflexivity].
  apply map_chars_ext. intros c _. symmetry. apply earlier_then_added.
Qed.

Lemma Revision2_valid_length plateNumber :
  Revision2.isValidPlateNumber plateNumber = true ->
  (6 <= String.length plateNumber <= 10)%nat.
Proof.
  unfold Revision2.isValidPlateNumber.
  destruct (String.length plateNumber <? 6)%nat eqn:E6; [discriminate|].
  destruct (10 <? String.length plateNumber)%nat eqn:E10; [discriminate|].
  apply Nat.ltb_ge in E6, E10. intros _. lia.
Qed.

(** X8.  What the earlier revision accepts with at most 8 characters the
    final revision accepts too, when the confidence is above 30; each
    revision then extracts its own normalized plate. *)
Theorem final_accepts_earlier (text : string) (confidence : Q)
    (st : CameraScanner.State) :
  Revision2.isValidPlateNumber (Revision2.cleanPlateNumber text) = true ->
  (String.length (Revision2.cleanPlateNumber text) <= 8)%nat ->
  (30 < confidence)%Q ->
  CameraScanner.extractedText (Revision2.capture text st)
  = Revision2.cleanPlateNumber text
  /\ CameraScanner.extractedText (CameraScanner.capture text confidence st)
     = CameraScanner.cleanPlateNumber text.
Proof.
  intros Hv H8 Hc. split.
  - unfold Revision2.capture. rewrite Hv. reflexivity.
  - apply Revision2_valid_length in Hv.
    unfold CameraScanner.capture.
    rewrite isValidPlateNumber_of_length.
    + replace (CameraScanner.Q_gt confidence 30) with true
        by (symmetry; apply Q_gt_iff; exact Hc).
      reflexivity.
    + rewrite cleanPlateNumber_unfold, length_map_chars.
      rewrite Revision2_cleanPlateNumber_unfold, length_map_chars in Hv, H8.
      lia.
Qed.

Lemma final_accepts_earlier_witness :
  let st := CameraScanner.mkState "" Entry [] in
  CameraScanner.extractedText (Revision2.capture "kl07 a1" st) = "KL07A1"
  /\ CameraScanner.extractedText (CameraScanner.capture "kl07 a1" (875 # 10) st)
     = "K107A1".
Proof.
  apply (final_accepts_earlier "kl07 a1" (875 # 10)
           (CameraScanner.mkState "" Entry []));
    [reflexivity | apply Nat.leb_le; reflexivity | reflexivity].
Defined.

End Revisions.

(** ** The log of the local-storage revision *)

Section LocalLog.
Import Spec More LocalApp LocalIndex.

(** The two ways [addParkingEntry] ends. *)
Lemma addParkingEntry_cases now newId plateNumber entryType st :
  (addParkingEntry now newId plateNumber entryType st
   = mkState (parkingEntries st)
       (mkToast "Duplicate Entry Detected" true :: toasts st)
   /\ exists e, In e (parkingEntries st)
                /\ plate_number e = plateNumber /\ entry_type e = entryType
                /\ now - fiveMinutes < timestamp e)
  \/ (addParkingEntry now newId plateNumber entryType st
      = mkState (mkEntry newId plateNumber now entryType :: parkingEntries st)
          (mkToast "License Plate Scanned" false :: toasts st)
      /\ forall e, In e (parkingEntries st) ->
                   plate_number e = plateNumber -> entry_type e = entryType ->
                   timestamp e <= now - fiveMinutes).
Proof.
  unfold addParkingEntry.
  destruct (find _ (parkingEntries st)) as [e|] eqn:F.
  - left. split; [reflexivity|]. exists e.
    apply find_some in F as [Hin He]. split; [exact Hin|].
    apply duplicate_test_iff in He. exact He.
  - right. split; [reflexivity|]. intros e Hin Hp Ht.
    pose proof (find_none _ _ F e Hin) as He. cbv beta in He.
    destruct (Z_lt_le_dec (now - fiveMinutes) (timestamp e)) as [Hlt|Hle];
      [|exact Hle].
    assert (((plate_number e =? plateNumber)%string
             && EntryType_eqb (entry_type e) entryType
             && (now - 5 * 60 * 1000 <? timestamp e))%bool = true) as Hyes
        by (apply duplicate_test_iff; auto).
    congruence.
Qed.

Lemma apart_sym a b : apart a b -> apart b a.
Proof.
  unfold apart. intros H Hp Ht.
  rewrite <- Z.abs_opp. replace (- (timestamp b - timestamp a))
    with (timestamp a - timestamp b) by lia.
  apply H; congruence.
Qed.




(** X10.  The log only grows at its head: after any series of requests the
    earlier list is still there, unchanged, behind at most one new entry
    per request, and every request has shown exactly one notice. *)
Theorem requests_append_only (rs : list Request) (st : State) :
  exists added,
    parkingEntries (requests rs st) = (added ++ parkingEntries st)%list
    /\ (List.length added <= List.length rs)%nat
    /\ List.length (toasts (requests rs st))
       = (List.length rs + List.length (toasts st))%nat.
Proof.
  revert st. induction rs as [|r rs IH]; intros st.
  - exists []. repeat split; reflexivity || (cbn; lia).
  - cbn [requests fold_left].
    destruct (IH (request r st)) as (added & E & Hlen & Ht).
    fold (requests rs (request r st)) in *.
    unfold request in *.
    destruct (addParkingEntry_cases (req_now r) (req_id r) (req_plate r)
                (req_type r) st) as [[R _] | [R _]]; rewrite R in *;
      cbn [parkingEntries toasts] in *.
    + exists added. repeat split; [exact E | cbn; lia | cbn in *; lia].
    + exists (added ++ [mkEntry (req_id r) (req_plate r) (req_now r) (req_type r)])%list.
      repeat split.
      * rewrite E, <- app_assoc. reflexivity.
      * rewrite length_app. cbn. lia.
      * cbn in *. lia.
Qed.

(** X11.  Once a request has been accepted, the same plate and direction
    are rejected for the next five minutes. *)
Theorem repeated_request_rejected (now now' : Z) (newId newId' plateNumber : string)
    (entryType : EntryType) (st : State) :
  let st1 := addParkingEntry now newId plateNumber entryType st in
  ~ signals_duplicate st st1 ->
  now' - fiveMinutes < now ->
  let st2 := addParkingEntry now' newId' plateNumber entryType st1 in
  signals_duplicate st1 st2 /\ parkingEntries st2 = parkingEntries st1.
Proof.
  cbv zeta. intros Hacc Hnow.
  destruct (addParkingEntry_cases now newId plateNumber entryType st)
    as [[R _] | [R _]].
  - exfalso. apply Hacc. unfold signals_duplicate. rewrite R. reflexivity.
  - destruct (addParkingEntry_cases now' newId' plateNumber entryType
                (addParkingEntry now newId plateNumber entryType st))
      as [[R' _] | [R' Hnone]].
    + unfold signals_duplicate. rewrite R'. split; reflexivity.
    + exfalso. rewrite R in Hnone. cbn [parkingEntries] in Hnone.
      specialize (Hnone _ (or_introl eq_refl) eq_refl eq_refl).
      cbn [timestamp] in Hnone. lia.
Qed.

Lemma repeated_request_rejected_witness :
  let st := mkState [] [] in
  let st1 := addParkingEntry 1718020800000 "a1" "K107A1" Entry st in
  let st2 := addParkingEntry 1718021099999 "a2" "K107A1" Entry st1 in
  signals_duplicate st1 st2 /\ parkingEntries st2 = parkingEntries st1.
Proof.
  apply (repeated_request_rejected 1718020800000 1718021099999 "a1" "a2"
           "K107A1" Entry (mkState [] [])).
  - unfold signals_duplicate. cbn. discriminate.
  - unfold fiveMinutes. lia.
Defined.

(** X12.  With a clock that does not run backwards the log stays ordered
    newest first: if no entry is older than one after it and none is
    stamped after now, the same holds after the request. *)
Theorem addParkingEntry_newest_first (now : Z) (newId plateNumber : string)
    (entryType : EntryType) (st : State) :
  ForallOrdPairs not_older (parkingEntries st) ->
  Forall (fun e => timestamp e <= now) (parkingEntries st) ->
  let st' := addParkingEntry now newId plateNumber entryType st in
  ForallOrdPairs not_older (parkingEntries st')
  /\ Forall (fun e => timestamp e <= now) (parkingEntries st').
Proof.
  cbv zeta. intros Hs Hle.
  destruct (addParkingEntry_cases now newId plateNumber entryType st)
    as [[-> _] | [-> _]]; cbn [parkingEntries]; [split; assumption|].
  split.
  - constructor; [|exact Hs]. exact Hle.
  - constructor; [cbn; lia | exact Hle].
Qed.

Lemma addParkingEntry_newest_first_witness :
  let st := mkState [mkEntry "a2" "XY21" 1718020860000 Exit;
                     mkEntry "a1" "K107A1" 1718020800000 Entry] [] in
  let st' := addParkingEntry 1718020900000 "a3" "K107A1" Entry st in
  ForallOrdPairs not_older (parkingEntries st')
  /\ Forall (fun e => timestamp e <= 1718020900000) (parkingEntries st').
Proof.
  apply (addParkingEntry_newest_first 1718020900000 "a3" "K107A1" Entry
           (mkState [mkEntry "a2" "XY21" 1718020860000 Exit;
                     mkEntry "a1" "K107A1" 1718020800000 Entry] [])).
  - repeat constructor; unfold not_older; cbn; lia.
  - repeat constructor; cbn; lia.
Defined.

End LocalLog.

(** ** From the scanner to the log *)

Section ScannerToLog.
Import JSString Spec More CameraScanner LocalApp.

Lemma capture_extracted text confidence st :
  extractedText (capture text confidence st) = ""
  \/ scanned_plate (extractedText (capture text confidence st)).
Proof.
  unfold capture.
  destruct (isValidPlateNumber (cleanPlateNumber text) && Q_gt confidence 30)%bool
    eqn:E; cbn [extractedText]; [right | left; reflexivity].
  apply andb_true_iff in E as [Hv _].
  apply isValidPlateNumber_iff in Hv as [Hlen _].
  split; [exact Hlen|]. apply Forall_forall.
  apply cleanPlateNumber_plate_chars.
Qed.

Lemma step_plates_scanned ev st : plates_scanned st -> plates_scanned (step ev st).
Proof.
  intros [Htext Hlog]. destruct ev as [text confidence | t | now newId | ];
    cbn [step].
  - split; [apply capture_extracted | exact Hlog].
  - split; assumption.
  - unfold confirmPlate.
    destruct (truthy (extractedText (scanner st))) eqn:E;
      cbn [scanner index extractedText]; [|split; assumption].
    split; [left; reflexivity|].
    destruct Htext as [H0 | Hplate]; [rewrite H0 in E; discriminate E|].
    destruct (addParkingEntry_cases now newId (extractedText (scanner st))
                (selectedEntryType (scanner st)) (index st))
      as [[-> _] | [-> _]]; cbn [LocalIndex.parkingEntries]; [exact Hlog|].
    constructor; [exact Hplate | exact Hlog].
  - split; [left; reflexivity | exact Hlog].
Qed.

(** X13.  Whatever the user does (capture, select, confirm, retake), every
    plate that reaches the log through the scanner has 4 to 8 characters,
    all of them in [[A-Z0-9]]. *)
Theorem run_plates_scanned (events : list Event) (st : LocalApp.State) :
  plates_scanned st -> plates_scanned (run events st).
Proof.
  revert st. induction events as [|ev events IH]; intros st H; [exact H|].
  cbn [run fold_left]. apply IH. apply step_plates_scanned. exact H.
Qed.

Lemma run_plates_scanned_witness :
  plates_scanned
    (run [Capture "kl07 a1" (875 # 10); Select Exit;
          Confirm 1718020800000 "a1"; Capture "??" (99 # 1);
          Confirm 1718020900000 "a2"]
       (mkApp (CameraScanner.mkState "" Entry []) (LocalIndex.mkState [] []))).
Proof.
  apply (run_plates_scanned
           [Capture "kl07 a1" (875 # 10); Select Exit;
            Confirm 1718020800000 "a1"; Capture "??" (99 # 1);
            Confirm 1718020900000 "a2"]
           (mkApp (CameraScanner.mkState "" Entry []) (LocalIndex.mkState [] []))).
  split; [left; reflexivity | constructor].
Defined.

End ScannerToLog.

(** ** The statistics bar *)

Section Statistics.
Import Spec More Dashboard IndexStats.

Lemma filter_length_le {A : Type} (f : A -> bool) (l : list A) :
  (List.length (filter f l) <= List.length l)%nat.
Proof.
  induction l as [|x l IH]; [apply le_n|]. cbn. destruct (f x); cbn; lia.
Qed.

Lemma directions_partition (l : list ParkingEntry) :
  (List.length (filter (fun e => EntryType_eqb (entry_type e) Entry) l)
   + List.length (filter (fun e => EntryType_eqb (entry_type e) Exit) l)
   = List.length l)%nat.
Proof.
  induction l as [|x l IH]; [reflexivity|]. cbn [filter].
  destruct (entry_type x); cbn; lia.
Qed.

(** X14.  The bar and the dashboard agree: "Today's Scans" is the number
    of entries the dashboard lists under the "today" filter alone, "Total
    Scans" the number it lists with no filter, and the parked count is the
    number listed under "Entry" less the number listed under "Exit". *)
Theorem stats_agree_with_dashboard (tz : Z -> Z) (now : Z)
    (parkingEntries : list ParkingEntry) :
  let s := stats tz now parkingEntries in
  let listed := fun filterType dateFilter =>
    List.length (filteredEntries tz now parkingEntries "" filterType dateFilter) in
  todayScans s = listed AllTypes Today
  /\ totalScans s = listed AllTypes AllDates
  /\ currentlyParked s
     = Z.of_nat (listed (OnlyType Entry) AllDates)
       - Z.of_nat (listed (OnlyType Exit) AllDates).
Proof. cbv zeta. repeat split; reflexivity. Qed.

(** X15.  Every entry counts as arrival or as departure, so the parked
    count lies between minus the total and the total and differs from the
    total by an even number; the shown count (never negative) and today's
    count are at most the total. *)
Theorem stats_bounds (tz : Z -> Z) (now : Z) (parkingEntries : list ParkingEntry) :
  let s := stats tz now parkingEntries in
  (todayScans s <= totalScans s)%nat
  /\ Z.abs (currentlyParked s) <= Z.of_nat (totalScans s)
  /\ (exists exits : nat,
        Z.of_nat (totalScans s) - currentlyParked s = 2 * Z.of_nat exits)
  /\ 0 <= shownParked s <= Z.of_nat (totalScans s).
Proof.
  cbv zeta. unfold shownParked, stats.
  cbn [todayScans totalScans currentlyParked].
  pose proof (directions_partition parkingEntries) as P.
  pose proof (filter_length_le
                (fun e => (JSDate.toDateString tz (timestamp e)
                           =? JSDate.toDateString tz now)%string)
                parkingEntries) as T.
  set (a := List.length
              (filter (fun e => EntryType_eqb (entry_type e) Entry) _)) in *.
  set (b := List.length
              (filter (fun e => EntryType_eqb (entry_type e) Exit) _)) in *.
  repeat split.
  - exact T.
  - lia.
  - exists b. lia.
  - lia.
  - lia.
Qed.

(** X16.  A rejected request leaves the statistics as they were; an
    accepted one adds one to the total and moves the parked count by one,
    up for an arrival and down for a departure. *)
Theorem stats_after_request (tz : Z -> Z) (later now : Z)
    (newId plateNumber : string) (entryType : EntryType) (st : LocalIndex.State) :
  let st' := LocalIndex.addParkingEntry now newId plateNumber entryType st in
  let s := stats tz later (LocalIndex.parkingEntries st) in
  let s' := stats tz later (LocalIndex.parkingEntries st') in
  (signals_duplicate st st' -> s' = s)
  /\ (~ signals_duplicate st st' ->
      totalScans s' = S (totalScans s)
      /\ currentlyParked s'
         = currentlyParked s + match entryType with Entry => 1 | Exit => -1 end).
Proof.
  cbv zeta.
  destruct (addParkingEntry_cases now newId plateNumber entryType st)
    as [[R _] | [R _]]; rewrite R; unfold signals_duplicate;
    cbn [LocalIndex.parkingEntries LocalIndex.toasts].
  - split; [reflexivity|]. intros H. exfalso. apply H. reflexivity.
  - split.
    + intros H. apply (f_equal (@hd Toast (mkToast "" false))) in H.
      cbn in H. discriminate H.
    + intros _. unfold stats. cbn [totalScans currentlyParked].
      split; [reflexivity|].
      cbn [filter entry_type]. destruct entryType; cbn [EntryType_eqb List.length]; lia.
Qed.

End Statistics.

(** ** Dashboard: more on filtering *)

Section DashboardFilterMore.
Import JSString JSDate Spec More Dashboard.

Variable tz : Z -> Z.
Variable now : Z.

Lemma filter_filter {A : Type} (f g : A -> bool) (l : list A) :
  filter g (filter f l) = filter (fun x => (f x && g x)%bool) l.
Proof.
  induction l as [|x l IH]; [reflexivity|]. cbn.
  destruct (f x); cbn; [destruct (g x)|]; rewrite IH; reflexivity.
Qed.

Lemma filter_all {A : Type} (l : list A) : filter (fun _ => true) l = l.
Proof.
  induction l as [|x l IH]; [reflexivity|]. cbn. rewrite IH. reflexivity.
Qed.

Lemma filter_twice {A : Type} (f : A -> bool) (l : list A) :
  filter f (filter f l) = filter f l.
Proof.
  rewrite filter_filter. apply filter_ext. intros x. destruct (f x); reflexivity.
Qed.

(** The three steps of [filteredEntries] are one pass with [passes]. *)
Lemma filteredEntries_passes entries searchTerm filterType dateFilter :
  filteredEntries tz now entries searchTerm filterType dateFilter
  = filter (passes tz now searchTerm filterType dateFilter) entries.
Proof.
  unfold filteredEntries, passes. cbv zeta.
  rewrite <- !filter_filter.
  destruct (truthy searchTerm), filterType, dateFilter;
    cbn [isAllDates negb]; rewrite ?filter_all; reflexivity.
Qed.

(** X17.  The filtered list is the entry list in its order, less the
    entries that fail a filter; so it is never longer than the entry list
    ("Showing n of m" has n <= m), and the filters of two lists put end to
    end are the filtered lists put end to end. *)
Theorem filteredEntries_order (entries more : list ParkingEntry)
    (searchTerm : string) (filterType : FilterType) (dateFilter : DateFilter) :
  let shown := fun l => filteredEntries tz now l searchTerm filterType dateFilter in
  shown entries = filter (passes tz now searchTerm filterType dateFilter) entries
  /\ (List.length (shown entries) <= List.length entries)%nat
  /\ shown (entries ++ more)%list = (shown entries ++ shown more)%list.
Proof.
  cbv beta zeta. rewrite !filteredEntries_passes. split; [reflexivity|]. split.
  - apply filter_length_le.
  - apply filter_app.
Qed.

(** X18.  Filtering what is already filtered changes nothing, and with an
    empty search box and both selectors on "all" the dashboard lists every
    entry. *)
Theorem filteredEntries_idempotent (entries : list ParkingEntry)
    (searchTerm : string) (filterType : FilterType) (dateFilter : DateFilter) :
  let shown := fun l => filteredEntries tz now l searchTerm filterType dateFilter in
  shown (shown entries) = shown entries
  /\ filteredEntries tz now entries "" AllTypes AllDates = entries.
Proof.
  cbv beta zeta. split; [|reflexivity].
  rewrite !filteredEntries_passes. apply filter_twice.
Qed.

Lemma In_filteredEntries entries searchTerm filterType dateFilter e :
  In e (filteredEntries tz now entries searchTerm filterType dateFilter)
  <-> In e entries /\ passes tz now searchTerm filterType dateFilter e = true.
Proof. rewrite filteredEntries_passes. apply filter_In. Qed.

Lemma passes_date searchTerm filterType dateFilter dateFilter' e :
  passes tz now searchTerm filterType dateFilter e = true ->
  passes tz now "" AllTypes dateFilter' e = true ->
  passes tz now searchTerm filterType dateFilter' e = true.
Proof.
  unfold passes. cbn [truthy]. intros H H'.
  apply andb_true_iff in H as [H _]. rewrite H. exact H'.
Qed.

(** X19.  The windows are nested: whatever the other filters, an entry
    listed for the last week is listed for the last month, and an entry
    listed under a date filter is listed under "all". *)
Theorem filteredEntries_week_in_month (entries : list ParkingEntry)
    (searchTerm : string) (filterType : FilterType) (dateFilter : DateFilter) :
  let shown := filteredEntries tz now entries searchTerm filterType in
  incl (shown Week) (shown Month) /\ incl (shown dateFilter) (shown AllDates).
Proof.
  cbv zeta. split; intros e He; apply In_filteredEntries in He as [Hin Hp];
    apply In_filteredEntries; (split; [exact Hin|]);
    apply (passes_date _ _ _ _ _ Hp); unfold passes; cbn [truthy andb];
    [|reflexivity].
  unfold passes in Hp. apply andb_true_iff in Hp as [_ Hp].
  apply Z.leb_le in Hp. apply Z.leb_le. lia.
Qed.

(** X20.  When the offset of local time from UTC is at most a day, an
    entry listed for today is listed for the last week. *)
Theorem filteredEntries_today_in_week (entries : list ParkingEntry)
    (searchTerm : string) (filterType : FilterType) :
  (forall t, Z.abs (tz t) <= days 1) ->
  in_range (now + tz now) = true ->
  Forall (fun e => in_range (timestamp e + tz (timestamp e)) = true) entries ->
  let shown := filteredEntries tz now entries searchTerm filterType in
  incl (shown Today) (shown Week).
Proof.
  intros Htz Hnow Hentries. cbv zeta. intros e He.
  apply In_filteredEntries in He as [Hin Hp]. apply In_filteredEntries.
  split; [exact Hin|]. apply (passes_date _ _ _ _ _ Hp).
  unfold passes in *. cbn [truthy andb].
  apply andb_true_iff in Hp as [_ Hp]. apply String.eqb_eq in Hp.
  rewrite Forall_forall in Hentries.
  apply toDateString_same_day in Hp; [|apply Hentries, Hin | exact Hnow].
  pose proof (Htz (timestamp e)) as B1. pose proof (Htz now) as B2.
  unfold days in B1, B2. unfold Day, msPerDay in Hp.
  apply Z.leb_le.
  set (a := timestamp e + tz (timestamp e)) in *.
  set (b := now + tz now) in *.
  assert (Z.abs (a - b) < 86400000) as Hd
      by (revert Hp; Z.to_euclidean_division_equations; lia).
  subst a b. lia.
Qed.

End DashboardFilterMore.

Lemma filteredEntries_today_in_week_witness :
  let tz := fun _ : Z => 19800000 in
  let now := 1718020800000 in
  let entries :=
    [mkEntry "a2" "XY21" 1718000000000 Exit;
     mkEntry "a1" "K107A1" 1717000000000 Entry] in
  incl (Dashboard.filteredEntries tz now entries "" Dashboard.AllTypes Dashboard.Today)
       (Dashboard.filteredEntries tz now entries "" Dashboard.AllTypes Dashboard.Week).
Proof.
  apply (filteredEntries_today_in_week (fun _ : Z => 19800000) 1718020800000
           [mkEntry "a2" "XY21" 1718000000000 Exit;
            mkEntry "a1" "K107A1" 1717000000000 Entry] "" Dashboard.AllTypes).
  - intros _. unfold Spec.days. lia.
  - reflexivity.
  - repeat constructor.
Defined.

(** ** Dashboard: more on the export *)

Section DashboardExportMore.
Import JSString JSDate Spec More Dashboard ExportFile.

Lemma free_of_app c a b : free_of c (a ++ b) = (free_of c a && free_of c b)%bool.
Proof. unfold free_of. rewrite chars_app. apply forallb_app. Qed.

Lemma free_of_digits c w n : is_digit c = false -> free_of c (digits w n) = true.
Proof.
  intros Hc. induction w as [|w IH]; [reflexivity|].
  change (digits (S w) n)
    with (String (digit_char ((n / 10 ^ Z.of_nat w) mod 10)) "" ++ digits w n).
  rewrite free_of_app, IH, andb_true_r.
  unfold free_of. cbn [chars list_ascii_of_string forallb].
  rewrite andb_true_r. apply negb_true_iff.
  pose proof (Z.mod_pos_bound (n / 10 ^ Z.of_nat w) 10 ltac:(lia)) as B.
  destruct (digit_char_val ((n / 10 ^ Z.of_nat w) mod 10) ltac:(lia)) as [Hd _].
  destruct (Ascii.eqb_spec (digit_char ((n / 10 ^ Z.of_nat w) mod 10)) c)
    as [E|]; [|reflexivity].
  rewrite E in Hd. congruence.
Qed.

Lemma free_of_char c x : (c =? x)%char = false -> free_of c (String x "") = true.
Proof.
  intros H. unfold free_of. cbn [chars list_ascii_of_string forallb].
  rewrite Ascii.eqb_sym, H. reflexivity.
Qed.

Lemma free_of_year_string c y :
  is_digit c = false -> (c =? "-")%char = false -> (c =? "+")%char = false ->
  free_of c (year_string y) = true.
Proof.
  intros Hd Hm Hp. unfold year_string.
  destruct ((0 <=? y) && (y <=? 9999))%bool; [|destruct (y <? 0)];
    rewrite ?free_of_app, ?free_of_digits, ?free_of_char by assumption;
    reflexivity.
Qed.

Lemma free_of_utc_date c t :
  is_digit c = false -> (c =? "-")%char = false -> (c =? "+")%char = false ->
  free_of c (utc_date t) = true.
Proof.
  intros Hd Hm Hp. unfold utc_date.
  rewrite !free_of_app, free_of_year_string, !free_of_digits, !free_of_char
    by assumption.
  reflexivity.
Qed.

Lemma toISOString_utc_date t :
  toISOString t
  = utc_date t ++ "T" ++ digits 2 (HourFromTime t)
    ++ ":" ++ digits 2 (MinFromTime t)
    ++ ":" ++ digits 2 (SecFromTime t)
    ++ "." ++ digits 3 (msFromTime t) ++ "Z".
Proof. unfold toISOString, utc_date. rewrite !append_assoc. reflexivity. Qed.

Lemma free_of_comma_toISOString t : free_of "," (toISOString t) = true.
Proof.
  rewrite toISOString_utc_date.
  rewrite !free_of_app, free_of_utc_date, !free_of_digits by reflexivity.
  reflexivity.
Qed.

Lemma split_nonempty c s : split c s <> [].
Proof.
  induction s as [|x s IH]; cbn; [discriminate|].
  destruct (x =? c)%char; [discriminate|]. destruct (split c s); discriminate.
Qed.

Lemma split_app c a b :
  free_of c a = true ->
  split c (a ++ b) = (a ++ first (split c b)) :: tl (split c b).
Proof.
  induction a as [|x a IH]; intros H.
  - cbn. pose proof (split_nonempty c b). destruct (split c b); [congruence|].
    reflexivity.
  - unfold free_of in H. cbn in H. apply andb_true_iff in H as [Hx Ha].
    apply negb_true_iff in Hx. cbn [append split]. rewrite Hx.
    rewrite IH by exact Ha. reflexivity.
Qed.

Lemma split_sep c a b :
  free_of c a = true -> split c (a ++ String c b) = a :: split c b.
Proof.
  intros H. rewrite split_app by exact H. cbn [split].
  rewrite Ascii.eqb_refl. cbn. rewrite append_empty_r. reflexivity.
Qed.

Lemma split_one c a : free_of c a = true -> split c a = [a].
Proof.
  intros H. rewrite <- (append_empty_r a) at 1. rewrite split_app by exact H.
  cbn. rewrite append_empty_r. reflexivity.
Qed.

Lemma split_csv_line e :
  free_of "," (plate_number e) = true ->
  split "," (csv_line e) = csv_fields e.
Proof.
  intros H. unfold csv_fields.
  change (csv_line e)
    with (plate_number e
          ++ String "," (EntryType_str (entry_type e)
                         ++ String "," (toISOString (timestamp e)))).
  rewrite split_sep by exact H.
  rewrite split_sep by (destruct (entry_type e); reflexivity).
  rewrite split_one by apply free_of_comma_toISOString. reflexivity.
Qed.

(** X21.  When no plate holds a comma or a line feed, the exported text
    reads back as a table: split at the line feeds and then at the commas
    it is the three column names followed, for each entry in order, by its
    plate, its direction and its ISO-8601 timestamp. *)
Theorem csvContent_fields (filtered : list ParkingEntry) :
  Forall (fun e => lf_free (plate_number e) = true
                   /\ free_of "," (plate_number e) = true) filtered ->
  map (split ",") (lines (csvContent filtered))
  = ["Plate Number"; "Entry Type"; "Timestamp"] :: map csv_fields filtered.
Proof.
  intros H.
  assert (lines (csvContent filtered) = csv_header :: map csv_line filtered) as E.
  { unfold csvContent. rewrite join_cons, map_map.
    rewrite <- (map_map csv_line (fun r => LF ++ r)).
    apply lines_rows; [reflexivity|].
    apply Forall_forall. intros r Hr.
    apply in_map_iff in Hr as (e & <- & He).
    rewrite Forall_forall in H. apply lf_free_csv_line, H, He. }
  rewrite E. cbn [map]. f_equal. rewrite map_map.
  apply map_ext_in. intros e He. rewrite Forall_forall in H.
  apply split_csv_line, H, He.
Qed.

Lemma csvContent_fields_witness :
  map (split ",")
    (lines (csvContent [mkEntry "k3j2h1g9f" "A8C123" 1718020805123 Entry;
                        mkEntry "0a1b2c3d4" "XY21" 1718020000000 Exit]))
  = [["Plate Number"; "Entry Type"; "Timestamp"];
     ["A8C123"; "Entry"; "2024-06-10T12:00:05.123Z"];
     ["XY21"; "Exit"; "2024-06-10T11:46:40.000Z"]].
Proof.
  apply (csvContent_fields [mkEntry "k3j2h1g9f" "A8C123" 1718020805123 Entry;
                            mkEntry "0a1b2c3d4" "XY21" 1718020000000 Exit]).
  repeat constructor.
Defined.

(** X22.  The downloaded file is named after the calendar date of the
    clock in UTC (not in the time zone of the browser):
    [smartpark-logs-YYYY-MM-DD.csv]. *)
Theorem download_name (now : Z) :
  download now = "smartpark-logs-" ++ utc_date now ++ ".csv".
Proof.
  unfold download. rewrite toISOString_utc_date.
  change (utc_date now ++ "T" ++ ?x) with (utc_date now ++ String "T" x).
  rewrite split_sep by (apply free_of_utc_date; reflexivity).
  reflexivity.
Qed.

End DashboardExportMore.

(** ** The remote-backed revision: loading and the whole of a request *)

Section RemoteMore.
Import JSDate Exn ParkingService RemoteIndex RemoteLoad Spec More.

Lemma getAllEntries_returns (response : Response (list DatabaseParkingEntry)) :
  exists entries,
    getAllEntries response = Return entries
    /\ (request_failed response -> entries = []).
Proof.
  unfold getAllEntries.
  destruct response as [[rows|] [err|] | reason]; cbn;
    eexists; (split; [reflexivity|]); try (intros _; reflexivity); intros [].
Qed.

(** X23.  [getAllEntries] never throws.  A failed request (an error in
    the answer, or a rejected promise) gives the empty list, and so does an
    answer without data; an answer with rows gives one entry per row, in
    the order of the rows, with the id, plate, instant and direction of the
    row. *)
Theorem getAllEntries_total (response : Response (list DatabaseParkingEntry)) :
  exists entries,
    getAllEntries response = Return entries
    /\ (request_failed response \/ response = Resolved None None -> entries = [])
    /\ (forall rows, response = Resolved (Some rows) None ->
        map id entries = map row_id rows
        /\ map plate_number entries = map row_plate_number rows
        /\ map timestamp entries = map row_timestamp rows
        /\ map entry_type entries = map row_entry_type rows).
Proof.
  unfold getAllEntries.
  destruct response as [[rows|] [err|] | reason]; cbn;
    eexists; (split; [reflexivity|]); split;
    try (intros _; reflexivity); try discriminate;
    try (intros [[] | H]; discriminate H).
  intros rows' H. injection H as <-. rewrite !map_map. cbn.
  repeat split; reflexivity.
Qed.

(** X24.  [loadParkingEntries] always ends with the loading flag off.
    Run on [getAllEntries] it never shows "Failed to Load Data": a failed
    request replaces the entry list by the empty list without a notice.
    Only if the fetch itself threw would the list be kept and the notice
    shown. *)
Theorem loadParkingEntries_after_getAllEntries
    (response : Response (list DatabaseParkingEntry)) (p : Page) :
  let p' := loadParkingEntries (getAllEntries response) p in
  isLoading p' = false
  /\ toasts (page p') = toasts (page p)
  /\ (request_failed response -> parkingEntries (page p') = [])
  /\ (forall fetched, isLoading (loadParkingEntries fetched p) = false)
  /\ (forall error,
        page (loadParkingEntries (Throw error) p)
        = mkState (parkingEntries (page p))
            (mkToast "Failed to Load Data" true :: toasts (page p))).
Proof.
  cbv zeta.
  destruct (getAllEntries_returns response) as (entries & E & Hfail).
  rewrite E. unfold loadParkingEntries. cbn.
  repeat split.
  - exact Hfail.
  - intros [entries'|error]; reflexivity.
Qed.

(** X25.  Whatever the service does (answer, fail, throw),
    [addParkingEntry] completes without an exception and shows exactly one
    notice; the entry list is kept, or gains at its head the one entry the
    service created, and then only after a duplicate check that answered
    "no" and with the notice "License Plate Scanned". *)
Theorem addParkingEntry_total (service : Service) (plateNumber : string)
    (entryType : EntryType) (st : State) :
  exists st' notice,
    addParkingEntry service plateNumber entryType st = Return st'
    /\ toasts st' = notice :: toasts st
    /\ (parkingEntries st' = parkingEntries st
        /\ notice <> mkToast "License Plate Scanned" false
        \/ exists e,
             parkingEntries st' = e :: parkingEntries st
             /\ svc_checkDuplicateEntry service plateNumber entryType = Return false
             /\ svc_insertEntry service plateNumber entryType = Return (Some e)
             /\ notice = mkToast "License Plate Scanned" false).
Proof.
  unfold addParkingEntry.
  destruct (svc_checkDuplicateEntry service plateNumber entryType)
    as [[|] | error]; cbn;
    [| destruct (svc_insertEntry service plateNumber entryType)
         as [[e|] | error]; cbn |];
    do 2 eexists; (split; [reflexivity|]); (split; [reflexivity|]);
    try (left; split; [reflexivity | discriminate]).
  right. exists e. repeat split; reflexivity.
Qed.

(** X26.  With the service of [parkingService.ts] the outcome of a
    request is read off the two answers of the store: "duplicate" when the
    select answers without error with at least one row; otherwise the
    created row at the head of the list when the insert answers without
    error with a row; otherwise "Failed to Save Entry" and the list as it
    was. *)
Theorem addParkingEntry_by_answers (supabase : Supabase) (now : Z)
    (plateNumber : string) (entryType : EntryType) (st : State) :
  let selected :=
    select_recent_limit1 supabase plateNumber entryType
      (toISOString (now - fiveMinutes)) in
  let inserted :=
    insert_select_single supabase plateNumber entryType (toISOString now) in
  addParkingEntry (parkingService supabase now) plateNumber entryType st
  = Return
      (if found_rows selected
       then mkState (parkingEntries st)
              (mkToast "Duplicate Entry Detected" true :: toasts st)
       else match created_row inserted with
            | Some e =>
                mkState (e :: parkingEntries st)
                  (mkToast "License Plate Scanned" false :: toasts st)
            | None =>
                mkState (parkingEntries st)
                  (mkToast "Failed to Save Entry" true :: toasts st)
            end).
Proof.
  cbv zeta. unfold addParkingEntry, parkingService.
  cbn [svc_checkDuplicateEntry svc_insertEntry].
  unfold checkDuplicateEntry, insertEntry. cbv zeta.
  change (now - 5 * 60 * 1000) with (now - fiveMinutes).
  destruct (select_recent_limit1 supabase plateNumber entryType
              (toISOString (now - fiveMinutes)))
    as [[[|row rows]|] [err|] | reason]; cbn;
    try reflexivity;
    destruct (insert_select_single supabase plateNumber entryType
                (toISOString now))
      as [[d|] [err'|] | reason']; reflexivity.
Qed.

End RemoteMore.

(** ** The log across a reload of the page *)

Section Reload.
Import JSDate Spec More LocalApp LocalIndex.

Lemma requests_in_range rs : forall st,
  Forall (fun r => in_range (req_now r) = true) rs ->
  Forall (fun e => in_range (timestamp e) = true) (parkingEntries st) ->
  Forall (fun e => in_range (timestamp e) = true)
    (parkingEntries (requests rs st)).
Proof.
  induction rs as [|r rs IH]; intros st Hrs Hst; [exact Hst|].
  cbn [requests fold_left]. inversion Hrs as [|? ? Hr Hrs']; subst.
  apply IH; [exact Hrs'|]. unfold request.
  destruct (addParkingEntry_cases (req_now r) (req_id r) (req_plate r)
              (req_type r) st) as [[-> _] | [-> _]]; cbn [parkingEntries];
    [exact Hst|].
  constructor; [exact Hr | exact Hst].
Qed.

Lemma requests_same_entries later : forall a b,
  parkingEntries a = parkingEntries b ->
  parkingEntries (requests later a) = parkingEntries (requests later b).
Proof.
  induction later as [|r later IH]; intros a b H; [exact H|].
  cbn [requests fold_left]. apply IH. unfold request, addParkingEntry.
  rewrite H. destruct (find _ (parkingEntries b)); reflexivity.
Qed.

(** X27.  The log survives a reload: after any series of requests made at
    instants a [Date] can hold, what the save effect wrote loads, on a
    fresh page, into the same entry list, so that every later request is
    answered on the reloaded page as it would have been without the
    reload. *)
Theorem requests_survive_reload (rs later : list Request) (st fresh : State) :
  Forall (fun r => in_range (req_now r) = true) rs ->
  Forall (fun e => in_range (timestamp e) = true) (parkingEntries st) ->
  exists reloaded,
    load (save (parkingEntries (requests rs st))) fresh = Some reloaded
    /\ parkingEntries reloaded = parkingEntries (requests rs st)
    /\ toasts reloaded = toasts fresh
    /\ parkingEntries (requests later reloaded)
       = parkingEntries (requests later (requests rs st)).
Proof.
  intros Hrs Hst.
  pose proof (requests_in_range rs st Hrs Hst) as H.
  rewrite (load_save _ fresh H). eexists. split; [reflexivity|].
  split; [reflexivity|]. split; [reflexivity|].
  apply requests_same_entries. reflexivity.
Qed.

Lemma requests_survive_reload_witness :
  let rs := [mkRequest 1718020800000 "a1" "K107A1" Entry;
             mkRequest 1718020860000 "a2" "XY21" Exit] in
  let later := [mkRequest 1718020900000 "a3" "K107A1" Entry] in
  let st := mkState [] [] in
  exists reloaded,
    load (save (parkingEntries (requests rs st))) st = Some reloaded
    /\ parkingEntries reloaded = parkingEntries (requests rs st)
    /\ toasts reloaded = toasts st
    /\ parkingEntries (requests later reloaded)
       = parkingEntries (requests later (requests rs st)).
Proof.
  apply (requests_survive_reload
           [mkRequest 1718020800000 "a1" "K107A1" Entry;
            mkRequest 1718020860000 "a2" "XY21" Exit]
           [mkRequest 1718020900000 "a3" "K107A1" Entry]
           (mkState [] []) (mkState [] [])).
  - repeat constructor.
  - constructor.
Defined.

End Reload.

(** ** The contrast step of the earlier revision *)

Section EarlierContrast.
Import JSNumber More Revision2Image.

Lemma earlier_contrast_table (g : Z) :
  0 <= g <= 255 -> earlier_contrast g = nth (Z.to_nat g) contrast_table 0.
Proof.
  intros H.
  assert (forallb (fun n => earlier_contrast (Z.of_nat n)
                            =? nth n contrast_table 0) (seq 0 256) = true) as A
      by (vm_cast_no_check (eq_refl true)).
  rewrite forallb_forall in A.
  specialize (A (Z.to_nat g)). rewrite Z2Nat.id in A by lia.
  apply Z.eqb_eq, A, in_seq. lia.
Qed.

Lemma contrast_table_antitone (n m : nat) :
  (n <= m < 256)%nat -> nth m contrast_table 0 <= nth n contrast_table 0.
Proof.
  intros H.
  assert (forallb (fun n => forallb (fun m => (m <? n)%nat
                     || (nth m contrast_table 0 <=? nth n contrast_table 0))%bool
                     (seq 0 256)) (seq 0 256) = true) as A
      by (vm_cast_no_check (eq_refl true)).
  rewrite forallb_forall in A. specialize (A n ltac:(apply in_seq; lia)).
  rewrite forallb_forall in A. specialize (A m ltac:(apply in_seq; lia)).
  apply orb_true_iff in A as [A | A].
  - apply Nat.ltb_lt in A. lia.
  - apply Z.leb_le, A.
Qed.

(** X28.  The contrast step of the earlier revision inverts the image:
    its factor is negative, so of two gray levels the lighter one is
    stored as the darker byte; levels up to 103 come out white (255),
    levels from 153 on black (0), and 128 stays 128. *)
Theorem earlier_contrast_inverts (g g' : Z) :
  0 <= g -> g <= g' -> g' <= 255 ->
  earlier_contrast g' <= earlier_contrast g
  /\ (g' <= 103 -> earlier_contrast g' = 255)
  /\ (153 <= g -> earlier_contrast g = 0)
  /\ earlier_contrast 128 = 128.
Proof.
  intros H0 H1 H2.
  rewrite !earlier_contrast_table by lia.
  split; [apply contrast_table_antitone; lia|].
  split; [|split; [|reflexivity]].
  - intros H. assert (nth 103 contrast_table 0 = 255) as E by reflexivity.
    assert (nth 0 contrast_table 0 = 255) as E0 by reflexivity.
    pose proof (contrast_table_antitone 0 (Z.to_nat g') ltac:(lia)).
    pose proof (contrast_table_antitone (Z.to_nat g') 103 ltac:(lia)). lia.
  - intros H. assert (nth 153 contrast_table 0 = 0) as E by reflexivity.
    assert (nth 255 contrast_table 0 = 0) as E0 by reflexivity.
    pose proof (contrast_table_antitone 153 (Z.to_nat g) ltac:(lia)).
    pose proof (contrast_table_antitone (Z.to_nat g) 255 ltac:(lia)). lia.
Qed.

Lemma earlier_contrast_inverts_witness :
  earlier_contrast 140 <= earlier_contrast 110
  /\ (140 <= 103 -> earlier_contrast 140 = 255)
  /\ (153 <= 110 -> earlier_contrast 110 = 0)
  /\ earlier_contrast 128 = 128.
Proof.
  apply (earlier_contrast_inverts 110 140); lia.
Defined.

End EarlierContrast.
